(** * The macvlan_noipam network driver: lifecycle of networks and endpoints

    A shallow embedding of the driver of [docker-macvlan-noipam]
    (package [driver], the file with [CreateNetwork], [DeleteNetwork],
    [CreateEndpoint], [DeleteEndpoint], [Join], [createNetwork] and the
    option parsers), and the properties of its specification.

    The driver keeps a table of networks, each with a table of endpoints,
    and talks to two collaborators: the host's link layer (netlink) and a
    key/value store.  Both are kept abstract (class [Env]); every handler is
    a function from a [world] to a result and a new [world].  The [world]
    also carries the list of mutating calls made so far, so that "nothing
    was done" can be stated as an equality of worlds. *)

From Stdlib Require Import String Ascii Strings.Byte List ZArith NArith.
From stdpp Require Import gmap strings list fin_maps.

Open Scope string_scope.
Open Scope list_scope.
Set Warnings "-register-all".

(** ** Data model *)

(** [type configuration struct]: its declaration is not among the sources;
    these are the fields the driver reads and writes. *)
Record configuration := mkConfiguration {
  ID : string;
  Parent : string;
  MacvlanMode : string;
  Internal : bool;
  CreatedSlaveLink : bool
}.

(** [&configuration{}] *)
Definition emptyConfiguration : configuration :=
  mkConfiguration "" "" "" false false.

Definition withID (v : string) (c : configuration) : configuration :=
  mkConfiguration v (Parent c) (MacvlanMode c) (Internal c) (CreatedSlaveLink c).
Definition withParent (v : string) (c : configuration) : configuration :=
  mkConfiguration (ID c) v (MacvlanMode c) (Internal c) (CreatedSlaveLink c).
Definition withMacvlanMode (v : string) (c : configuration) : configuration :=
  mkConfiguration (ID c) (Parent c) v (Internal c) (CreatedSlaveLink c).
Definition withInternal (v : bool) (c : configuration) : configuration :=
  mkConfiguration (ID c) (Parent c) (MacvlanMode c) v (CreatedSlaveLink c).
Definition withCreatedSlaveLink (v : bool) (c : configuration) : configuration :=
  mkConfiguration (ID c) (Parent c) (MacvlanMode c) (Internal c) v.

(** [net.HardwareAddr] is [[]byte]; a Go slice is either [nil] or a
    (possibly empty) sequence, and [ep.mac == nil] tells them apart. *)
Definition HardwareAddr := option (list byte).

(** [type endpoint struct] *)
Record endpoint := mkEndpoint {
  ep_id : string;
  ep_nid : string;
  ep_mac : HardwareAddr;
  ep_srcName : string;
  ep_dbIndex : N;
  ep_dbExists : bool
}.

Definition withSrcName (v : string) (e : endpoint) : endpoint :=
  mkEndpoint (ep_id e) (ep_nid e) (ep_mac e) v (ep_dbIndex e) (ep_dbExists e).
Definition withMac (v : HardwareAddr) (e : endpoint) : endpoint :=
  mkEndpoint (ep_id e) (ep_nid e) v (ep_srcName e) (ep_dbIndex e) (ep_dbExists e).

(** [type network struct]; [endpointTable] is [map[string]*endpoint].  The
    sandbox, the back pointer to the driver and the mutex carry no data of
    the sequential behaviour. *)
Record network := mkNetwork {
  nw_id : string;
  nw_endpoints : gmap string endpoint;
  nw_config : configuration
}.

Definition withEndpoints (v : gmap string endpoint) (n : network) : network :=
  mkNetwork (nw_id n) v (nw_config n).

(** Objects handed to the store ([datastore.KVObject]): the driver stores
    configurations and endpoints. *)
Inductive kvobject :=
| KVNetwork (c : configuration)
| KVEndpoint (e : endpoint).

(** Values of type [interface{}] as they reach the driver.  Requests are
    decoded from JSON by the plugin handler ([network.NewHandler] in
    [cmd/main.go]), which yields nil, bool, float64, string, slices and
    [map[string]interface{}]; [map[string]string] is kept for callers
    inside the process.  A float64 is carried by its bit pattern. *)
Inductive iface :=
| VNil
| VBool (b : bool)
| VFloat64 (bits : Z)
| VString (s : string)
| VSlice (l : list iface)
| VMapSI (m : list (string * iface))
| VMapSS (m : list (string * string)).

(** Errors, one constructor per place that builds one; the comment gives the
    source's format string. *)
Inductive error :=
| E_ipv4_pool_not_empty
    (* fmt.Errorf("ipv4 pool is not empty") *)
| E_invalid_mode (mode : string)
    (* fmt.Errorf("requested macvlan mode '%s' is not valid, ...") *)
| E_loopback_parent
    (* fmt.Errorf("loopback interface is not a valid %s parent link") *)
| E_restoring_existing (nid : string)
    (* types.InternalMaskableErrorf("restoring existing network %s") *)
| E_parent_in_use (owner parent : string)
    (* fmt.Errorf("network %s is already using parent interface %s") *)
| E_network_not_found (nid : string)
    (* fmt.Errorf("network id %s not found") and its %q variants *)
| E_endpoint_not_found (eid : string)
    (* fmt.Errorf("endpoint id %q not found") *)
| E_could_not_find_endpoint (eid : string)
    (* fmt.Errorf("could not find endpoint with id %s") *)
| E_generating_iface_name (cause : string)
    (* fmt.Errorf("error generating an interface name: %s") *)
| E_save_endpoint (eid : string) (cause : string)
    (* fmt.Errorf("failed to save macvlan endpoint %.7s to store: %v") *)
| E_delete_from_datastore (nid : string) (cause : string)
    (* fmt.Errorf("error deleting deleting id %s from datastore: %v") *)
| E_unrecognized_format (v : iface)
    (* types.BadRequestErrorf("unrecognized network configuration format %T: %v") *)
| E_not_found (nid : string)
    (* the NotFoundError of the registry's get *)
| E_collaborator (msg : string).
    (* an error of the link layer, the store or a helper, passed on as it is *)

(** [types.MaskableError]: of the errors above only the one built with
    [types.InternalMaskableErrorf] is maskable. *)
Definition maskable (e : error) : bool :=
  match e with
  | E_restoring_existing _ => true
  | _ => false
  end.

(** What a call yields: a value, an error, or a run-time panic. *)
Inductive res (A : Type) :=
| Ok (a : A)
| Fail (e : error)
| Panic (msg : string).
Arguments Ok {A} a.
Arguments Fail {A} e.
Arguments Panic {A} msg.

(** Mutating calls to the collaborators, in the order they are made. *)
Inductive event :=
| EvCreateDummy (name : string)
| EvCreateVlan (name : string)
| EvDeleteLink (name : string)
| EvCreateMacvlan (ifname parent mode : string)
| EvLinkDel (link : string)
| EvStorePut (o : kvobject)
| EvStoreDelete (o : kvobject).

(** ** Constants *)

Definition networkType := "macvlan_noipam".
Definition modeOpt := "_mode".
Definition driverModeOpt := "macvlan" +:+ modeOpt.
Definition vethLen : Z := 7.
Definition containerVethPrefix := "eth".
Definition vethPrefix := "veth".
Definition macvlanType := networkType.
Definition modePrivate := "private".
Definition modeVepa := "vepa".
Definition modeBridge := "bridge".
Definition modePassthru := "passthru".
Definition parentOpt := "parent".

(** [netlabel.GenericData] and [netlabel.Internal] of libnetwork. *)
Definition GenericData := "com.docker.network.generic".
Definition InternalLabel := "com.docker.network.internal".

(** ** Requests and responses of the plugin protocol *)

(** [networkapi.IPAMData] *)
Record IPAMData := mkIPAMData {
  AddressSpace : string;
  Pool : string;
  Gateway : string
}.

(** [networkapi.CreateNetworkRequest]; [IPv4Data] is a slice of pointers. *)
Record CreateNetworkRequest := mkCreateNetworkRequest {
  cn_NetworkID : string;
  cn_Options : list (string * iface);
  cn_IPv4Data : list (option IPAMData);
  cn_IPv6Data : list (option IPAMData)
}.

Record DeleteNetworkRequest := mkDeleteNetworkRequest {
  dn_NetworkID : string
}.

(** [networkapi.EndpointInterface] *)
Record EndpointInterface := mkEndpointInterface {
  Address : string;
  AddressIPv6 : string;
  MacAddress : string
}.

(** [networkapi.CreateEndpointRequest]; [Interface] is a pointer. *)
Record CreateEndpointRequest := mkCreateEndpointRequest {
  ce_NetworkID : string;
  ce_EndpointID : string;
  ce_Interface : option EndpointInterface;
  ce_Options : list (string * iface)
}.

Record CreateEndpointResponse := mkCreateEndpointResponse {
  cer_Interface : option EndpointInterface
}.

Record DeleteEndpointRequest := mkDeleteEndpointRequest {
  de_NetworkID : string;
  de_EndpointID : string
}.

Record JoinRequest := mkJoinRequest {
  j_NetworkID : string;
  j_EndpointID : string;
  j_SandboxKey : string;
  j_Options : list (string * iface)
}.

(** [networkapi.JoinResponse] with its [InterfaceName]; the gateways and
    static routes are left at their zero values by the driver. *)
Record JoinResponse := mkJoinResponse {
  SrcName : string;
  DstPrefix : string;
  DisableGatewayService : bool
}.

(** ** Pure parts: option parsing and the text of a hardware address *)

(** [option[key]] on a map given by an enumeration of its entries. *)
Fixpoint mapLookup {A} (key : string) (m : list (string * A)) : option A :=
  match m with
  | [] => None
  | (k, v) :: rest => if decide (k = key) then Some v else mapLookup key rest
  end.

(** [func (config *configuration) fromOptions(labels map[string]string) error];
    the configuration is changed in place and the error is always nil. *)
Fixpoint fromOptions (config : configuration) (labels : list (string * string))
  : configuration :=
  match labels with
  | [] => config
  | (label, value) :: rest =>
      if decide (label = parentOpt) then fromOptions (withParent value config) rest
      else if decide (label = driverModeOpt)
           then fromOptions (withMacvlanMode value config) rest
           else fromOptions config rest
  end.

(** The loop of the [map[string]interface{}] case: [value.(string)] is an
    assertion without the comma-ok form, and panics on any other type. *)
Fixpoint genericLoop (config : configuration) (opt : list (string * iface))
  : res configuration :=
  match opt with
  | [] => Ok config
  | (label, value) :: rest =>
      if decide (label = parentOpt) then
        match value with
        | VString s => genericLoop (withParent s config) rest
        | _ => Panic "interface conversion: interface {} is not string"
        end
      else if decide (label = driverModeOpt) then
        match value with
        | VString s => genericLoop (withMacvlanMode s config) rest
        | _ => Panic "interface conversion: interface {} is not string"
        end
      else genericLoop config rest
  end.

(** [func parseNetworkGenericOptions(data interface{})], which returns a
    configuration and an error.  The cases of a configuration pointer and
    of [options.Generic] of the type switch need a caller inside the
    process that hands over a value of these named types; no value of
    [iface] has them, so the two cases select nothing here. *)
Definition parseNetworkGenericOptions (data : iface) : res configuration :=
  match data with
  | VMapSS opt => Ok (fromOptions emptyConfiguration opt)
  | VMapSI opt => genericLoop emptyConfiguration opt
  | _ => Fail (E_unrecognized_format data)
  end.

(** [func parseNetworkOptions(id string, option options.Generic)], which
    returns a configuration and an error. *)
Definition parseNetworkOptions (id : string) (option : list (string * iface))
  : res configuration :=
  let parsed :=
    match mapLookup GenericData option with
    | Some VNil | None => Ok emptyConfiguration
    | Some genData => parseNetworkGenericOptions genData
    end in
  match parsed with
  | Ok config =>
      match mapLookup InternalLabel option with
      | Some (VBool true) => Ok (withInternal true config)
      | _ => Ok config
      end
  | Fail err => Fail err
  | Panic msg => Panic msg
  end.

(** [func (a HardwareAddr) String() string] of package [net]: two lower-case
    hexadecimal digits a byte, colons in between, and the empty string for
    an address of length zero. *)
Definition hexDigit (n : N) : ascii :=
  match String.get (N.to_nat n) "0123456789abcdef" with
  | Some c => c
  | None => "0"%char
  end.

Fixpoint hardwareAddrBuf (i : nat) (a : list byte) : string :=
  match a with
  | [] => ""
  | b :: rest =>
      (if (0 <? i)%nat then ":" else "") +:+
      String (hexDigit (N.shiftr (Byte.to_N b) 4))
        (String (hexDigit (N.land (Byte.to_N b) 15))
           (hardwareAddrBuf (S i) rest))
  end.

Definition HardwareAddr_String (a : HardwareAddr) : string :=
  match a with
  | None => ""
  | Some l => hardwareAddrBuf 0 l
  end.

(** [net.HardwareAddr(s)] for a string [s]: the conversion of a string to a
    byte slice, which copies the bytes of the text and never yields nil. *)
Definition HardwareAddr_of_string (s : string) : HardwareAddr :=
  Some (list_byte_of_string s).

(** ** The collaborators *)

Class Env := {
  host : Type;
  store : Type;
  rng : Type;
  (** netlink, as the handlers call it *)
  LinkByName : string → host → option string;
  LinkDel : string → host → option string * host;
  (** [netutils.GenerateIfaceName] and [netutils.GenerateMACFromIP(nil)] *)
  GenerateIfaceName : string → Z → host → rng → (string + string) * rng;
  (** a pair of a value and an error of the collaborators is a sum: the
      error to the left, the value to the right *)
  GenerateMACFromIP : rng → list byte * rng;
  (** the link layer below the helpers *)
  linkExists : string → host → bool;
  createDummy : string → host → option string * host;
  createVlanSubinterface : string → host → option string * host;
  deleteLink : string → host → option string * host;
  createMacvlanSlave : string → string → string → host → (string + string) * host;
  parseVlan : string → option (string * N);
  (** the store *)
  storePut : kvobject → store → option string * store;
  storeRemove : kvobject → store → option string * store;
  (** [stringid.TruncateID], and the helpers [getDummyName] and
      [validateID], whose sources are absent and of which the
      specification fixes nothing but that they are functions *)
  TruncateID : string → string;
  getDummyName : string → string;
  validateID : string → string → option string;
  (** the order in which [range] visits a map: any enumeration of it *)
  rangeOrder : ∀ A : Type, gmap string A → list (string * A);
  rangeOrder_perm : ∀ (A : Type) (m : gmap string A),
    rangeOrder A m ≡ₚ map_to_list m
}.

(** A link layer in which a link that was just created exists. *)
Class LinkLaws `{Env} := {
  createDummy_exists : ∀ name h h',
    createDummy name h = (None, h') → linkExists name h' = true;
  createVlanSubinterface_exists : ∀ name h h',
    createVlanSubinterface name h = (None, h') → linkExists name h' = true
}.

Section Driver.
Context `{Env}.

(** [type driver struct] together with the host it runs on and the calls
    it has made. *)
Record world := mkWorld {
  w_networks : gmap string network;
  w_host : host;
  w_store : store;
  w_rng : rng;
  w_log : list event
}.

Definition setNetworks (t : gmap string network) (w : world) : world :=
  mkWorld t (w_host w) (w_store w) (w_rng w) (w_log w).
Definition setRng (r : rng) (w : world) : world :=
  mkWorld (w_networks w) (w_host w) (w_store w) r (w_log w).

(** One call to the link layer: the new host and the event. *)
Definition hostCall {A} (ev : event) (r : A * host) (w : world) : A * world :=
  (r.1, mkWorld (w_networks w) r.2 (w_store w) (w_rng w) (w_log w ++ [ev])).
Definition storeCall {A} (ev : event) (r : A * store) (w : world) : A * world :=
  (r.1, mkWorld (w_networks w) (w_host w) r.2 (w_rng w) (w_log w ++ [ev])).

(** ** Helpers whose sources are absent *)

(** Modelled from the spec: the registry of section 4.3, a map from network
    id to network ([getNetworks], [addNetwork], [deleteNetwork], [network],
    [getNetwork]; their file is absent).  "[delete(id)]: removes from the
    in-memory map"; "[get(id) -> Network or NotFoundError]". *)
Definition getNetworks (w : world) : list network :=
  (rangeOrder network (w_networks w)).*2.

Definition addNetwork (n : network) (w : world) : world :=
  setNetworks (<[nw_id n := n]> (w_networks w)) w.

Definition deleteNetwork (nid : string) (w : world) : world :=
  setNetworks (delete nid (w_networks w)) w.

Definition driver_network (nid : string) (w : world) : option network :=
  w_networks w !! nid.

Definition getNetwork (nid : string) (w : world) : res network :=
  match w_networks w !! nid with
  | Some n => Ok n
  | None => Fail (E_not_found nid)
  end.

(** Modelled from the spec: the endpoint map of a network of section 4.4
    ([n.endpoint], [n.addEndpoint], [n.deleteEndpoint]; their file is
    absent).  A network is held by pointer, so a change of its endpoint map
    is a change of the entry of the registry. *)
Definition network_endpoint (eid : string) (n : network) : option endpoint :=
  nw_endpoints n !! eid.

Definition addEndpoint (nid : string) (ep : endpoint) (w : world) : world :=
  setNetworks
    (alter (λ n, withEndpoints (<[ep_id ep := ep]> (nw_endpoints n)) n) nid
       (w_networks w)) w.

Definition deleteEndpoint (nid : string) (eid : string) (w : world) : world :=
  setNetworks
    (alter (λ n, withEndpoints (delete eid (nw_endpoints n)) n) nid
       (w_networks w)) w.

(** Modelled from the spec: the store coordinator of section 4.5,
    [persist(entity)] and [remove(entity)] ([storeUpdate], [storeDelete];
    their file is absent). *)
Definition storeUpdate (o : kvobject) (w : world) : option string * world :=
  storeCall (EvStorePut o) (storePut o (w_store w)) w.

Definition storeDelete (o : kvobject) (w : world) : option string * world :=
  storeCall (EvStoreDelete o) (storeRemove o (w_store w)) w.

(** Modelled from the spec: the link helpers of sections 4.2 and 6
    ([parentExists], [createDummyLink], [createVlanLink], [delDummyLink],
    [delVlanLink], [createMacVlan]; their file is absent).  A VLAN
    sub-interface is created only for a name that parses as
    [<existing-base-iface>.<numeric-vlan-id>], and removed only for a name
    of the VLAN sub-interface pattern. *)
Definition parentExists (name : string) (w : world) : bool :=
  linkExists name (w_host w).

Definition createDummyLink (name truncNetID : string) (w : world)
  : option string * world :=
  hostCall (EvCreateDummy name) (createDummy name (w_host w)) w.

Definition createVlanLink (name : string) (w : world) : option string * world :=
  match parseVlan name with
  | Some (base, _) =>
      if linkExists base (w_host w)
      then hostCall (EvCreateVlan name) (createVlanSubinterface name (w_host w)) w
      else (Some "parent interface of the VLAN is not on the host", w)
  | None => (Some "invalid subinterface vlan name", w)
  end.

Definition delDummyLink (name : string) (w : world) : option string * world :=
  hostCall (EvDeleteLink name) (deleteLink name (w_host w)) w.

Definition delVlanLink (name : string) (w : world) : option string * world :=
  match parseVlan name with
  | Some _ => hostCall (EvDeleteLink name) (deleteLink name (w_host w)) w
  | None => (None, w)
  end.

Definition createMacVlan (containerIfName parent macvlanMode : string)
    (w : world) : (string + string) * world :=
  hostCall (EvCreateMacvlan containerIfName parent macvlanMode)
    (createMacvlanSlave containerIfName parent macvlanMode (w_host w)) w.

(** The two netlink calls the handlers make themselves. *)
Definition nlLinkDel (link : string) (w : world) : option string * world :=
  hostCall (EvLinkDel link) (LinkDel link (w_host w)) w.

Definition generateIfaceName (prefix : string) (len : Z) (w : world)
  : (string + string) * world :=
  let r := GenerateIfaceName prefix len (w_host w) (w_rng w) in
  (r.1, setRng r.2 w).

(** ** The driver *)

(** The loop of [createNetwork] over [d.getNetworks()]: an error for a
    network of another id on the same parent, [foundExisting] otherwise. *)
Fixpoint scanNetworks (config : configuration) (networkList : list network)
  : res bool :=
  match networkList with
  | [] => Ok false
  | nw :: rest =>
      if decide (Parent config = Parent (nw_config nw)) then
        if decide (ID config ≠ ID (nw_config nw)) then
          Fail (E_parent_in_use (getDummyName (TruncateID (ID (nw_config nw))))
                  (Parent config))
        else Ok true
      else scanNetworks config rest
  end.

(** [func (d *driver) createNetwork(config *configuration) (bool, error)].
    The configuration is passed by pointer and [CreatedSlaveLink] is set
    through it, so the configuration as the call leaves it is returned next
    to the result. *)
Definition createNetwork (config : configuration) (w : world)
  : res bool * configuration * world :=
  match scanNetworks config (getNetworks w) with
  | Fail err => (Fail err, config, w)
  | Panic msg => (Panic msg, config, w)
  | Ok foundExisting =>
      let provisioned : option string * configuration * world :=
        if negb (parentExists (Parent config) w) then
          let dummyName := getDummyName (TruncateID (ID config)) in
          if decide (dummyName = Parent config) then
            match createDummyLink (Parent config) dummyName w with
            | (Some err, w') => (Some err, config, w')
            | (None, w') => (None, withCreatedSlaveLink true config, w')
            end
          else
            match createVlanLink (Parent config) w with
            | (Some err, w') => (Some err, config, w')
            | (None, w') => (None, withCreatedSlaveLink true config, w')
            end
        else (None, config, w) in
      match provisioned with
      | (Some err, config', w') => (Fail (E_collaborator err), config', w')
      | (None, config', w') =>
          if negb foundExisting then
            (Ok foundExisting, config',
             addNetwork (mkNetwork (ID config') ∅ config') w')
          else (Ok foundExisting, config', w')
      end
  end.

(** [func (d *driver) CreateNetwork(req *networkapi.CreateNetworkRequest) error] *)
Definition CreateNetwork (req : CreateNetworkRequest) (w : world)
  : res unit * world :=
  let checked : res unit :=
    match cn_IPv4Data req with
    | [] => Ok tt
    | None :: _ => Panic "invalid memory address or nil pointer dereference"
    | Some d :: _ =>
        if decide (Pool d ≠ "0.0.0.0/0") then Fail E_ipv4_pool_not_empty
        else Ok tt
    end in
  match checked with
  | Fail err => (Fail err, w)
  | Panic msg => (Panic msg, w)
  | Ok _ =>
  match parseNetworkOptions (cn_NetworkID req) (cn_Options req) with
  | Fail err => (Fail err, w)
  | Panic msg => (Panic msg, w)
  | Ok config =>
  let config := withID (cn_NetworkID req) config in
  let mode : option string :=
    if decide (MacvlanMode config = "" ∨ MacvlanMode config = modeBridge)
    then Some modeBridge
    else if decide (MacvlanMode config = modePrivate) then Some modePrivate
    else if decide (MacvlanMode config = modePassthru) then Some modePassthru
    else if decide (MacvlanMode config = modeVepa) then Some modeVepa
    else None in
  match mode with
  | None => (Fail (E_invalid_mode (MacvlanMode config)), w)
  | Some m =>
  let config := withMacvlanMode m config in
  if decide (Parent config = "lo") then (Fail E_loopback_parent, w)
  else
  let config :=
    if decide (Parent config = "")
    then withParent (getDummyName (TruncateID (ID config))) config
    else config in
  match createNetwork config w with
  | (Fail err, _, w1) => (Fail err, w1)
  | (Panic msg, _, w1) => (Panic msg, w1)
  | (Ok foundExisting, config, w1) =>
      if foundExisting then (Fail (E_restoring_existing (ID config)), w1)
      else
        match storeUpdate (KVNetwork config) w1 with
        | (Some err, w2) =>
            (Fail (E_collaborator err), deleteNetwork (ID config) w2)
        | (None, w2) => (Ok tt, w2)
        end
  end end end end.

(** The body of the loop over the endpoints, which [DeleteEndpoint] has
    too: the link of the endpoint is deleted if netlink finds it, and the
    record of the endpoint is removed from the store; neither failure is
    more than logged. *)
Definition dropEndpoint (ep : endpoint) (w : world) : world :=
  let w1 :=
    match LinkByName (ep_srcName ep) (w_host w) with
    | Some link => (nlLinkDel link w).2
    | None => w
    end in
  (storeDelete (KVEndpoint ep) w1).2.

(** [if ok := n.config.CreatedSlaveLink; ok { ... }] of [DeleteNetwork]. *)
Definition releaseParent (nid : string) (n : network) (w : world) : world :=
  if CreatedSlaveLink (nw_config n) then
    if parentExists (Parent (nw_config n)) w then
      if decide (Parent (nw_config n) = getDummyName (TruncateID nid))
      then (delDummyLink (Parent (nw_config n)) w).2
      else (delVlanLink (Parent (nw_config n)) w).2
    else w
  else w.

(** [func (d *driver) DeleteNetwork(req *networkapi.DeleteNetworkRequest) error] *)
Definition DeleteNetwork (req : DeleteNetworkRequest) (w : world)
  : res unit * world :=
  match driver_network (dn_NetworkID req) w with
  | None => (Fail (E_network_not_found (dn_NetworkID req)), w)
  | Some n =>
      let w1 := releaseParent (dn_NetworkID req) n w in
      let w2 :=
        foldl (λ w ep, dropEndpoint ep w) w1
          (rangeOrder endpoint (nw_endpoints n)).*2 in
      let w3 := deleteNetwork (dn_NetworkID req) w2 in
      match storeDelete (KVNetwork (nw_config n)) w3 with
      | (Some err, w4) =>
          (Fail (E_delete_from_datastore (dn_NetworkID req) err), w4)
      | (None, w4) => (Ok tt, w4)
      end
  end.

(** [func (d *driver) CreateEndpoint(req *networkapi.CreateEndpointRequest)] *)
Definition CreateEndpoint (req : CreateEndpointRequest) (w : world)
  : res CreateEndpointResponse * world :=
  match validateID (ce_NetworkID req) (ce_EndpointID req) with
  | Some err => (Fail (E_collaborator err), w)
  | None =>
  match getNetwork (ce_NetworkID req) w with
  | Fail _ | Panic _ => (Fail (E_network_not_found (ce_NetworkID req)), w)
  | Ok n =>
  match ce_Interface req with
  | None => (Panic "invalid memory address or nil pointer dereference", w)
  | Some ifc =>
  let ep :=
    mkEndpoint (ce_EndpointID req) (ce_NetworkID req)
      (HardwareAddr_of_string (MacAddress ifc)) "" 0 false in
  let '(ep, w) :=
    match ep_mac ep with
    | None =>
        let r := GenerateMACFromIP (w_rng w) in
        (withMac (Some r.1) ep, setRng r.2 w)
    | Some _ => (ep, w)
    end in
  match storeUpdate (KVEndpoint ep) w with
  | (Some err, w1) => (Fail (E_save_endpoint (ep_id ep) err), w1)
  | (None, w1) =>
      (Ok (mkCreateEndpointResponse
             (Some (mkEndpointInterface "" "" (HardwareAddr_String (ep_mac ep))))),
       addEndpoint (ce_NetworkID req) ep w1)
  end end end end.

(** [func (d *driver) DeleteEndpoint(req *networkapi.DeleteEndpointRequest) error] *)
Definition DeleteEndpoint (req : DeleteEndpointRequest) (w : world)
  : res unit * world :=
  match validateID (de_NetworkID req) (de_EndpointID req) with
  | Some err => (Fail (E_collaborator err), w)
  | None =>
  match driver_network (de_NetworkID req) w with
  | None => (Fail (E_network_not_found (de_NetworkID req)), w)
  | Some n =>
  match network_endpoint (de_EndpointID req) n with
  | None => (Fail (E_endpoint_not_found (de_EndpointID req)), w)
  | Some ep =>
      (Ok tt, deleteEndpoint (de_NetworkID req) (ep_id ep) (dropEndpoint ep w))
  end end end.

(** [endpoint.srcName = vethName]: the endpoint is held by pointer, so the
    assignment changes the entry of the endpoint map of the network. *)
Definition setSrcName (nid eid vethName : string) (w : world) : world :=
  setNetworks
    (alter (λ n, withEndpoints (alter (withSrcName vethName) eid (nw_endpoints n)) n)
       nid (w_networks w)) w.

(** [func (d *driver) Join(req *networkapi.JoinRequest)] *)
Definition Join (req : JoinRequest) (w : world) : res JoinResponse * world :=
  match getNetwork (j_NetworkID req) w with
  | Fail err => (Fail err, w)
  | Panic msg => (Panic msg, w)
  | Ok n =>
  match network_endpoint (j_EndpointID req) n with
  | None => (Fail (E_could_not_find_endpoint (j_EndpointID req)), w)
  | Some _ =>
  match generateIfaceName vethPrefix vethLen w with
  | (inl err, w1) => (Fail (E_generating_iface_name err), w1)
  | (inr containerIfName, w1) =>
  match createMacVlan containerIfName (Parent (nw_config n))
          (MacvlanMode (nw_config n)) w1 with
  | (inl err, w2) => (Fail (E_collaborator err), w2)
  | (inr vethName, w2) =>
  let w3 := setSrcName (j_NetworkID req) (j_EndpointID req) vethName w2 in
  match driver_network (j_NetworkID req) w3 ≫= network_endpoint (j_EndpointID req) with
  | None => (Fail (E_could_not_find_endpoint (j_EndpointID req)), w3)
  | Some ep =>
  match storeUpdate (KVEndpoint ep) w3 with
  | (Some err, w4) => (Fail (E_save_endpoint (ep_id ep) err), w4)
  | (None, w4) => (Ok (mkJoinResponse vethName containerVethPrefix true), w4)
  end end end end end end.

(** ** What the properties speak of *)

(** The configuration [CreateNetwork] hands to [createNetwork]: the part of
    [CreateNetwork] before that call, which touches neither the host nor
    the store. *)
Definition requestedConfig (req : CreateNetworkRequest) : res configuration :=
  let checked : res unit :=
    match cn_IPv4Data req with
    | [] => Ok tt
    | None :: _ => Panic "invalid memory address or nil pointer dereference"
    | Some d :: _ =>
        if decide (Pool d ≠ "0.0.0.0/0") then Fail E_ipv4_pool_not_empty
        else Ok tt
    end in
  match checked with
  | Fail err => Fail err
  | Panic msg => Panic msg
  | Ok _ =>
  match parseNetworkOptions (cn_NetworkID req) (cn_Options req) with
  | Fail err => Fail err
  | Panic msg => Panic msg
  | Ok config =>
  let config := withID (cn_NetworkID req) config in
  let mode : option string :=
    if decide (MacvlanMode config = "" ∨ MacvlanMode config = modeBridge)
    then Some modeBridge
    else if decide (MacvlanMode config = modePrivate) then Some modePrivate
    else if decide (MacvlanMode config = modePassthru) then Some modePassthru
    else if decide (MacvlanMode config = modeVepa) then Some modeVepa
    else None in
  match mode with
  | None => Fail (E_invalid_mode (MacvlanMode config))
  | Some m =>
  let config := withMacvlanMode m config in
  if decide (Parent config = "lo") then Fail E_loopback_parent
  else
    Ok (if decide (Parent config = "")
        then withParent (getDummyName (TruncateID (ID config))) config
        else config)
  end end end.

(** The part of [CreateNetwork] from the call of [createNetwork] on. *)
Definition registerAndStore (config : configuration) (w : world)
  : res unit * world :=
  match createNetwork config w with
  | (Fail err, _, w1) => (Fail err, w1)
  | (Panic msg, _, w1) => (Panic msg, w1)
  | (Ok foundExisting, config, w1) =>
      if foundExisting then (Fail (E_restoring_existing (ID config)), w1)
      else
        match storeUpdate (KVNetwork config) w1 with
        | (Some err, w2) =>
            (Fail (E_collaborator err), deleteNetwork (ID config) w2)
        | (None, w2) => (Ok tt, w2)
        end
  end.

(** Every network is filed under its id, which is the id of its
    configuration. *)
Definition keyed (t : gmap string network) : Prop :=
  ∀ k n, t !! k = Some n → nw_id n = k ∧ ID (nw_config n) = k.

(** No two networks of the table are on the same parent. *)
Definition parentUnique (t : gmap string network) : Prop :=
  ∀ k1 k2 n1 n2,
    t !! k1 = Some n1 → t !! k2 = Some n2 →
    Parent (nw_config n1) = Parent (nw_config n2) →
    k1 = k2.

Definition registryInv (t : gmap string network) : Prop :=
  keyed t ∧ parentUnique t.

(** What can happen to a driver: a request of the runtime, the replay of a
    stored configuration at start-up ([createNetwork] "is used by new
    network callbacks and persistent network cache"), or a change of the
    host and the store from outside, which leaves the table alone.  The
    handlers that are not listed ([Leave], [EndpointInfo], the discovery and
    connectivity calls) change nothing. *)
Inductive step : world → world → Prop :=
| step_CreateNetwork req w : step w (CreateNetwork req w).2
| step_DeleteNetwork req w : step w (DeleteNetwork req w).2
| step_CreateEndpoint req w : step w (CreateEndpoint req w).2
| step_DeleteEndpoint req w : step w (DeleteEndpoint req w).2
| step_Join req w : step w (Join req w).2
| step_replay config w : step w (createNetwork config w).2
| step_outside w w' : w_networks w' = w_networks w → step w w'.

(** [NewDriver] starts from [make(networkTable)]. *)
Inductive reachable : world → Prop :=
| reachable_new h s r : reachable (mkWorld ∅ h s r [])
| reachable_step w w' : reachable w → step w w' → reachable w'.

(** ** The phases of [createNetwork] and of [DeleteNetwork] *)

(** [createNetwork] from the end of its loop on: the test of the parent,
    the creation of the link and the insertion, given the [foundExisting]
    the loop has left.  Between the loop and the insertion
    [createNetwork] holds no lock. *)
Definition createNetworkAfterScan (foundExisting : bool)
    (config : configuration) (w : world) : res bool * configuration * world :=
  let provisioned : option string * configuration * world :=
    if negb (parentExists (Parent config) w) then
      let dummyName := getDummyName (TruncateID (ID config)) in
      if decide (dummyName = Parent config) then
        match createDummyLink (Parent config) dummyName w with
        | (Some err, w') => (Some err, config, w')
        | (None, w') => (None, withCreatedSlaveLink true config, w')
        end
      else
        match createVlanLink (Parent config) w with
        | (Some err, w') => (Some err, config, w')
        | (None, w') => (None, withCreatedSlaveLink true config, w')
        end
    else (None, config, w) in
  match provisioned with
  | (Some err, config', w') => (Fail (E_collaborator err), config', w')
  | (None, config', w') =>
      if negb foundExisting then
        (Ok foundExisting, config',
         addNetwork (mkNetwork (ID config') ∅ config') w')
      else (Ok foundExisting, config', w')
  end.

(** The states of a driver whose calls of [createNetwork] may overlap: a
    call runs its loop over the table as it is, and its remainder later,
    when other calls may have run theirs.  The list holds the calls that
    have left their loop, each with its [foundExisting]. *)
Inductive overlapped : world → list (configuration * bool) → Prop :=
| overlapped_new h s r : overlapped (mkWorld ∅ h s r []) []
| overlapped_scan w flights config found :
    overlapped w flights →
    scanNetworks config (getNetworks w) = Ok found →
    overlapped w ((config, found) :: flights)
| overlapped_finish w before after config found :
    overlapped w (before ++ (config, found) :: after) →
    overlapped (createNetworkAfterScan found config w).2 (before ++ after).

(** The world in which [DeleteNetwork] deletes the record of the network:
    the parent link released, the endpoints dropped, the network out of
    the table. *)
Definition beforeRecordDelete (nid : string) (n : network) (w : world) : world :=
  deleteNetwork nid
    (foldl (λ w ep, dropEndpoint ep w) (releaseParent nid n w)
       (rangeOrder endpoint (nw_endpoints n)).*2).

(** ** What the further properties speak of *)

(** The test of the IPv4 pools lets the request pass: there is no
    descriptor, or the first one has the pool "0.0.0.0/0". *)
Definition poolsAccepted (req : CreateNetworkRequest) : Prop :=
  match cn_IPv4Data req with
  | [] => True
  | Some d :: _ => Pool d = "0.0.0.0/0"
  | None :: _ => False
  end.

(** The modes the [switch] of [CreateNetwork] lets through. *)
Definition validModes : list string :=
  [modeBridge; modePrivate; modePassthru; modeVepa].

Definition modesValid (t : gmap string network) : Prop :=
  ∀ k n, t !! k = Some n → MacvlanMode (nw_config n) ∈ validModes.

(** Every endpoint is filed under its id in the network whose id it
    carries, and has an address that is not nil. *)
Definition endpointsKeyed (t : gmap string network) : Prop :=
  ∀ k n eid ep,
    t !! k = Some n → nw_endpoints n !! eid = Some ep →
    ep_id ep = eid ∧ ep_nid ep = k ∧ ep_mac ep ≠ None.

(** The states of a driver that has served requests only, without a
    replay of stored configurations. *)
Inductive served : world → Prop :=
| served_new h s r : served (mkWorld ∅ h s r [])
| served_CreateNetwork req w : served w → served (CreateNetwork req w).2
| served_DeleteNetwork req w : served w → served (DeleteNetwork req w).2
| served_CreateEndpoint req w : served w → served (CreateEndpoint req w).2
| served_DeleteEndpoint req w : served w → served (DeleteEndpoint req w).2
| served_Join req w : served w → served (Join req w).2
| served_outside w w' : served w → w_networks w' = w_networks w → served w'.

End Driver.

(** ** A small host and store to run the driver on *)

Module Sim.

Fixpoint inb (name : string) (h : list string) : bool :=
  match h with
  | [] => false
  | x :: rest => if decide (x = name) then true else inb name rest
  end.

Fixpoint without (name : string) (h : list string) : list string :=
  match h with
  | [] => []
  | x :: rest => if decide (x = name) then without name rest else x :: without name rest
  end.

Definition key (o : kvobject) : string :=
  match o with
  | KVNetwork c => "network/" +:+ ID c
  | KVEndpoint e => "endpoint/" +:+ ep_id e
  end.

Fixpoint ticks (n : nat) : string :=
  match n with
  | O => ""
  | S k => String "i" (ticks k)
  end.

Definition vlanOf (name : string) : option (string * N) :=
  match index 0 "." name with
  | Some i => Some (substring 0 i name, 0%N)
  | None => None
  end.

(** The host is the list of the names of its links, the store the list of
    the keys it holds, the source of randomness a counter.  [putFails] and
    [removeFails] make every write of that kind fail. *)
Definition env (putFails removeFails : bool) : Env := {|
  host := list string;
  store := list string;
  rng := nat;
  LinkByName name h := if inb name h then Some name else None;
  LinkDel link h := (None, without link h);
  GenerateIfaceName prefix len h r := (inr (prefix +:+ ticks (S r)), S r);
  GenerateMACFromIP r := ([x02; x42; x00; x00; x00; x01], S r);
  linkExists name h := inb name h;
  createDummy name h := (None, name :: h);
  createVlanSubinterface name h := (None, name :: h);
  deleteLink name h := (None, without name h);
  createMacvlanSlave ifname parent mode h :=
    if inb parent h then (inr ifname, ifname :: h)
    else (inl "the parent does not exist", h);
  parseVlan := vlanOf;
  storePut o s :=
    if putFails then (Some "the store refuses to write", s)
    else (None, key o :: s);
  storeRemove o s :=
    if removeFails then (Some "the store refuses to delete", s)
    else (None, without (key o) s);
  TruncateID nid := substring 0 12 nid;
  getDummyName nid := "dm-" +:+ nid;
  validateID nid eid :=
    if decide (nid = "") then Some "invalid network id"
    else if decide (eid = "") then Some "invalid endpoint id" else None;
  rangeOrder A m := map_to_list m;
  rangeOrder_perm A m := reflexivity (map_to_list m)
|}.

(** A host with one physical interface, an empty store, no network. *)
Definition boot (putFails removeFails : bool) : @world (env putFails removeFails) :=
  @mkWorld (env putFails removeFails) ∅ ["eth0"] [] O [].

(** Requests. *)
Definition reqDummy : CreateNetworkRequest :=
  mkCreateNetworkRequest "net1" [] [] [].
Definition reqOnParent (nid parent : string) : CreateNetworkRequest :=
  mkCreateNetworkRequest nid
    [(GenericData, VMapSI [("parent", VString parent)])] [] [].
Definition reqOnePool : CreateNetworkRequest :=
  mkCreateNetworkRequest "net1" [] [Some (mkIPAMData "" "10.0.0.0/24" "")] [].
Definition reqTwoPools : CreateNetworkRequest :=
  mkCreateNetworkRequest "net1" []
    [Some (mkIPAMData "" "0.0.0.0/0" ""); Some (mkIPAMData "" "10.0.0.0/24" "")] [].
Definition reqNumberAsParent : CreateNetworkRequest :=
  mkCreateNetworkRequest "net1"
    [(GenericData, VMapSI [("parent", VFloat64 5)])] [] [].
Definition epReq (mac : string) : CreateEndpointRequest :=
  mkCreateEndpointRequest "net1" "ep1" (Some (mkEndpointInterface "" "" mac)) [].
Definition joinReq : JoinRequest := mkJoinRequest "net1" "ep1" "" [].

(** Worlds: after the creation of "net1" on a dummy link, of "net1" on
    "eth0", of the endpoint "ep1" of "net1", and after its first join. *)
Definition withNet1 (putFails removeFails : bool) : @world (env putFails removeFails) :=
  (CreateNetwork (H:=env putFails removeFails) reqDummy (boot putFails removeFails)).2.
Definition withEp1 (putFails removeFails : bool) : @world (env putFails removeFails) :=
  (CreateEndpoint (H:=env putFails removeFails) (epReq "") (withNet1 putFails removeFails)).2.
Definition joinedOnce : @world (env false false) :=
  (Join (H:=env false false) joinReq (withEp1 false false)).2.

(** What the tables of [withNet1OnEth0] and [withEp1] hold. *)
Definition net1Config : configuration :=
  mkConfiguration "net1" "dm-net1" "bridge" false true.
Definition net1OnEth0 : network :=
  mkNetwork "net1" ∅ (mkConfiguration "net1" "eth0" "bridge" false false).
Definition ep1 : endpoint := mkEndpoint "ep1" "net1" (Some []) "" 0 false.
Definition net1WithEp1 : network := mkNetwork "net1" {[ "ep1" := ep1 ]} net1Config.

(** A host whose link layer refuses every dummy link; the rest is the
    host [env false false]. *)
Definition envNoDummy : Env := {|
  host := list string;
  store := list string;
  rng := nat;
  LinkByName := @LinkByName (env false false);
  LinkDel := @LinkDel (env false false);
  GenerateIfaceName := @GenerateIfaceName (env false false);
  GenerateMACFromIP := @GenerateMACFromIP (env false false);
  linkExists := @linkExists (env false false);
  createDummy name h := (Some "the link layer refuses dummy links", h);
  createVlanSubinterface := @createVlanSubinterface (env false false);
  deleteLink := @deleteLink (env false false);
  createMacvlanSlave := @createMacvlanSlave (env false false);
  parseVlan := vlanOf;
  storePut := @storePut (env false false);
  storeRemove := @storeRemove (env false false);
  TruncateID := @TruncateID (env false false);
  getDummyName := @getDummyName (env false false);
  validateID := @validateID (env false false);
  rangeOrder A m := map_to_list m;
  rangeOrder_perm A m := reflexivity (map_to_list m)
|}.

(** Further requests. *)
Definition reqWithMode (mode : string) : CreateNetworkRequest :=
  mkCreateNetworkRequest "net1"
    [(GenericData, VMapSI [("macvlan_mode", VString mode)])] [] [].
Definition reqTextAsGeneric : CreateNetworkRequest :=
  mkCreateNetworkRequest "net1" [(GenericData, VString "parent=eth0")] [] [].
Definition reqNilPool : CreateNetworkRequest :=
  mkCreateNetworkRequest "net1" [] [None] [].
Definition epReqWithoutInterface : CreateEndpointRequest :=
  mkCreateEndpointRequest "net1" "ep1" None [].

(** Further worlds: the network "net1" is registered but its dummy link
    has gone from the host; and "net1" with its endpoint "ep1", on a host
    with the dummy link and a store that refuses to write, and on a host
    without the dummy link. *)
Definition net1Requested : configuration :=
  mkConfiguration "net1" "dm-net1" "bridge" false false.
Definition lostLink : @world (env false false) :=
  @mkWorld (env false false) {[ "net1" := mkNetwork "net1" ∅ net1Config ]}
    ["eth0"] ["network/net1"] O [].
Definition bootNoDummy : @world envNoDummy :=
  @mkWorld envNoDummy ∅ ["eth0"] [] O [].
Definition storeDown : @world (env true false) :=
  @mkWorld (env true false) {[ "net1" := net1WithEp1 ]} ["dm-net1"; "eth0"] [] O [].
Definition parentGone : @world (env false false) :=
  @mkWorld (env false false) {[ "net1" := net1WithEp1 ]} ["eth0"] [] O [].

(** The request of "net1" once more, marked internal; and two
    configurations on the parent "eth0", with the world two overlapping
    calls of [createNetwork] for them leave. *)
Definition reqDummyInternal : CreateNetworkRequest :=
  mkCreateNetworkRequest "net1" [(InternalLabel, VBool true)] [] [].
Definition onEth0 (nid : string) : configuration :=
  mkConfiguration nid "eth0" "bridge" false false.
Definition twoOnEth0 : @world (env false false) :=
  (createNetworkAfterScan (H:=env false false) false (onEth0 "net2")
     (createNetworkAfterScan (H:=env false false) false (onEth0 "net1")
        (boot false false)).2).2.

End Sim.


(** * Properties *)

Section Properties.
Context `{Env}.
Implicit Types (w : world) (config : configuration) (n nw : network).

(** ** The table and its enumeration *)

Lemma elem_of_getNetworks w n :
  n ∈ getNetworks w ↔ ∃ k, w_networks w !! k = Some n.
Proof.
  unfold getNetworks. rewrite list_elem_of_fmap. split.
  - intros [[k n'] [-> Hin]]. exists k.
    rewrite rangeOrder_perm in Hin. by apply elem_of_map_to_list in Hin.
  - intros [k Hk]. exists (k, n). split; [done|].
    rewrite rangeOrder_perm. by apply elem_of_map_to_list.
Qed.

Lemma elem_of_rangeOrder {A} (m : gmap string A) (x : A) :
  x ∈ (rangeOrder A m).*2 ↔ ∃ k, m !! k = Some x.
Proof.
  rewrite list_elem_of_fmap. split.
  - intros [[k x'] [-> Hin]]. exists k.
    rewrite rangeOrder_perm in Hin. by apply elem_of_map_to_list in Hin.
  - intros [k Hk]. exists (k, x). split; [done|].
    rewrite rangeOrder_perm. by apply elem_of_map_to_list.
Qed.

(** ** The loop over the networks *)

Lemma scanNetworks_no_panic config l msg : scanNetworks config l ≠ Panic msg.
Proof.
  induction l as [|nw l IH]; simpl; [done|].
  repeat case_decide; done.
Qed.

Lemma scanNetworks_none config l :
  scanNetworks config l = Ok false ↔
  ∀ nw, nw ∈ l → Parent config ≠ Parent (nw_config nw).
Proof.
  induction l as [|nw l IH]; simpl.
  - split; [|done]. intros _ nw Hin. by apply elem_of_nil in Hin.
  - repeat case_decide.
    + split; [done|]. intros Hall. exfalso. eapply Hall; [left|done].
    + split; [done|]. intros Hall. exfalso. eapply Hall; [left|done].
    + rewrite IH. split.
      * intros Hall nw' [->|Hin]%elem_of_cons; auto.
      * intros Hall nw' Hin. apply Hall. by right.
Qed.

Lemma scanNetworks_found config l :
  (∃ nw, nw ∈ l ∧ Parent config = Parent (nw_config nw)) →
  (∀ nw, nw ∈ l → Parent config = Parent (nw_config nw) →
         ID config = ID (nw_config nw)) →
  scanNetworks config l = Ok true.
Proof.
  induction l as [|nw l IH]; simpl; intros [nw' [Hin Hp]] Hall.
  - by apply elem_of_nil in Hin.
  - case_decide as Hpar.
    + rewrite decide_False; [done|]. intros Hne. apply Hne, Hall; [left|done].
    + apply IH.
      * apply elem_of_cons in Hin as [->|Hin]; [done|]. by exists nw'.
      * intros nw'' Hin''. apply Hall. by right.
Qed.

Lemma scanNetworks_conflict config l owner :
  owner ∈ l →
  Parent config = Parent (nw_config owner) →
  ID config ≠ ID (nw_config owner) →
  (∀ nw, nw ∈ l → Parent config = Parent (nw_config nw) →
         ID (nw_config nw) = ID (nw_config owner)) →
  scanNetworks config l =
    Fail (E_parent_in_use (getDummyName (TruncateID (ID (nw_config owner))))
            (Parent config)).
Proof.
  induction l as [|nw l IH]; simpl; intros Hin Hp Hid Hall.
  - by apply elem_of_nil in Hin.
  - case_decide as Hpar.
    + assert (ID (nw_config nw) = ID (nw_config owner)) as Heq
        by (apply Hall; [left|done]).
      rewrite decide_True; [by rewrite Heq | by rewrite Heq].
    + apply IH; try done.
      * apply elem_of_cons in Hin as [->|Hin]; done.
      * intros nw' Hin'. apply Hall. by right.
Qed.

(** ** [CreateNetwork] in two parts *)

Lemma CreateNetwork_parts req w :
  CreateNetwork req w =
    match requestedConfig req with
    | Ok config => registerAndStore config w
    | Fail err => (Fail err, w)
    | Panic msg => (Panic msg, w)
    end.
Proof.
  unfold CreateNetwork, requestedConfig, registerAndStore.
  destruct (cn_IPv4Data req) as [|[d|] rest]; simpl; try done;
    repeat (case_decide || case_match); simplify_eq; done.
Qed.

Lemma requestedConfig_ID req config :
  requestedConfig req = Ok config → ID config = cn_NetworkID req.
Proof.
  unfold requestedConfig.
  destruct (cn_IPv4Data req) as [|[d|] rest]; simpl;
    repeat (case_decide || case_match); intros; simplify_eq; done.
Qed.

(** ** [createNetwork] *)

Lemma createVlanLink_None name w w' :
  createVlanLink name w = (None, w') →
  w_networks w' = w_networks w ∧ w_store w' = w_store w ∧
  w_rng w' = w_rng w ∧
  createVlanSubinterface name (w_host w) = (None, w_host w') ∧
  w_log w' = w_log w ++ [EvCreateVlan name].
Proof.
  unfold createVlanLink, hostCall.
  destruct (parseVlan name) as [[base vid]|]; [|done].
  destruct (linkExists base (w_host w)); [|done].
  destruct (createVlanSubinterface name (w_host w)) as [e h'] eqn:Hc.
  simpl. intros [= -> <-]. done.
Qed.

(** A replay: the table has a network on the parent, every such network has
    the id of the request, and the parent is on the host.  Nothing is
    done. *)
Lemma createNetwork_replay config w :
  (∃ k n, w_networks w !! k = Some n ∧ Parent config = Parent (nw_config n)) →
  (∀ k n, w_networks w !! k = Some n → Parent config = Parent (nw_config n) →
          ID config = ID (nw_config n)) →
  parentExists (Parent config) w = true →
  createNetwork config w = (Ok true, config, w).
Proof.
  intros (k & n & Hk & Hp) Hall Hex. unfold createNetwork.
  rewrite scanNetworks_found.
  - by rewrite Hex.
  - exists n. split; [|done]. apply elem_of_getNetworks. eauto.
  - intros nw [k' Hk']%elem_of_getNetworks. by apply (Hall k').
Qed.


(** A new network: what [createNetwork] has done when it answers
    [foundExisting = false]. *)
Lemma createNetwork_new config w config' w' :
  createNetwork config w = (Ok false, config', w') →
  (∀ k n, w_networks w !! k = Some n → Parent config ≠ Parent (nw_config n)) ∧
  ID config' = ID config ∧ Parent config' = Parent config ∧
  w_networks w' = <[ID config := mkNetwork (ID config) ∅ config']> (w_networks w) ∧
  w_store w' = w_store w ∧ w_rng w' = w_rng w ∧
  (parentExists (Parent config) w = true ∧ config' = config ∧
     w_host w' = w_host w ∧ w_log w' = w_log w ∨
   parentExists (Parent config) w = false ∧
     CreatedSlaveLink config' = true ∧
     (createDummy (Parent config) (w_host w) = (None, w_host w') ∧
        w_log w' = w_log w ++ [EvCreateDummy (Parent config)] ∨
      createVlanSubinterface (Parent config) (w_host w) = (None, w_host w') ∧
        w_log w' = w_log w ++ [EvCreateVlan (Parent config)])).
Proof.
  unfold createNetwork.
  destruct (scanNetworks config (getNetworks w)) as [found| |] eqn:Hscan;
    [|intros; simplify_eq..].
  intros Hrun.
  assert (found = false) as ->.
  { repeat (case_match || case_decide); simplify_eq; done. }
  split.
  { intros k n Hk. eapply scanNetworks_none; [done|].
    apply elem_of_getNetworks. eauto. }
  destruct (parentExists (Parent config) w) eqn:Hex; simpl in Hrun.
  - simplify_eq. simpl. repeat split; try done. by left.
  - case_decide as Hd.
    + unfold createDummyLink, hostCall in Hrun.
      destruct (createDummy (Parent config) (w_host w)) as [[e|] h'] eqn:Hc;
        simpl in Hrun; simplify_eq.
      simpl. repeat split; try done. right. eauto.
    + destruct (createVlanLink (Parent config) w) as [[e|] w1] eqn:Hc;
        simpl in Hrun; simplify_eq.
      apply createVlanLink_None in Hc as (Hn & Hs & Hr & Hc & Hl).
      simpl. rewrite Hn, Hs, Hr. repeat split; try done.
      right. eauto.
Qed.

(** ** Creating a network *)

(** C1.  After a create-network call that succeeded, a second
    create-network request that is valid and has the same id and the same
    parent (whatever its other options) changes nothing at all: no link is
    created, the table and the store are as they were, no call to a
    collaborator is made.  It is answered with the maskable error
    "restoring existing network".  This holds on a host where a link that
    was created exists. *)
Theorem CreateNetwork_twice_is_replay `{!LinkLaws} req w w1 req2 config1 config2 :
  CreateNetwork req w = (Ok tt, w1) →
  requestedConfig req = Ok config1 →
  requestedConfig req2 = Ok config2 →
  ID config2 = ID config1 →
  Parent config2 = Parent config1 →
  CreateNetwork req2 w1 = (Fail (E_restoring_existing (cn_NetworkID req)), w1) ∧
  maskable (E_restoring_existing (cn_NetworkID req)) = true ∧
  is_Some (w_networks w1 !! cn_NetworkID req).
Proof.
  intros Hrun Hreq Hreq2 Hsameid Hsamepar. revert Hrun.
  rewrite !CreateNetwork_parts, Hreq, Hreq2.
  pose proof (requestedConfig_ID _ _ Hreq) as Hid.
  unfold registerAndStore at 1.
  destruct (createNetwork config1 w) as [[r config'] w'] eqn:Hcreate.
  destruct r as [[]| |]; [done| |done..].
  apply createNetwork_new in Hcreate
    as (Hfree & Hid' & Hpar' & Hnets & Hstore & Hrng & Hlink).
  unfold storeUpdate, storeCall.
  destruct (storePut (KVNetwork config') (w_store w')) as [[e|] s'] eqn:Hput;
    simpl; [done|].
  intros [= <-]. split; [|split; [done|]].
  - unfold registerAndStore.
    rewrite createNetwork_replay; [by rewrite Hsameid, Hid| | |].
    + exists (ID config1), (mkNetwork (ID config1) ∅ config'). simpl.
      rewrite Hnets, lookup_insert_eq. split; [done|]. simpl. congruence.
    + simpl. rewrite Hnets. intros k n Hk Hp.
      apply lookup_insert_Some in Hk as [[_ <-]|[_ Hk]]; [simpl; congruence|].
      destruct (Hfree k n Hk). congruence.
    + unfold parentExists. simpl. rewrite Hsamepar.
      destruct Hlink as [(Hex & _ & -> & _)|(_ & _ & [[Hc _]|[Hc _]])]; [done|..].
      * by eapply createDummy_exists.
      * by eapply createVlanSubinterface_exists.
  - simpl. rewrite Hnets, <- Hid, lookup_insert_eq. by eexists.
Qed.


(** C6, as the code has it.  A create-network request whose first IPv4 pool
    descriptor is not "0.0.0.0/0" is refused with the error "ipv4 pool is
    not empty", and the driver, the host and the store are left as they
    were. *)
Theorem CreateNetwork_first_pool_rejected req w d rest :
  cn_IPv4Data req = Some d :: rest →
  Pool d ≠ "0.0.0.0/0" →
  CreateNetwork req w = (Fail E_ipv4_pool_not_empty, w).
Proof.
  intros Hdata Hpool. unfold CreateNetwork. rewrite Hdata.
  by rewrite decide_True.
Qed.

(** ** Option parsing *)

Lemma genericLoop_panics config opt label v :
  (label, v) ∈ opt →
  label = parentOpt ∨ label = driverModeOpt →
  (∀ s, v ≠ VString s) →
  genericLoop config opt =
    Panic "interface conversion: interface {} is not string".
Proof.
  intros Hin Hlabel Hv. revert config.
  induction opt as [|[l x] opt IH]; intros config.
  - by apply elem_of_nil in Hin.
  - apply elem_of_cons in Hin as [[= <- <-]|Hin]; simpl.
    + destruct Hlabel as [->| ->].
      * rewrite decide_True by done. destruct v; try done. by destruct (Hv s).
      * rewrite decide_False by done. rewrite decide_True by done.
        destruct v; try done. by destruct (Hv s).
    + repeat case_decide; try destruct x; auto.
Qed.

(** C10.  A generic-data map that gives the key "parent" or the key
    "macvlan_mode" a value that is not a string makes
    [parseNetworkGenericOptions] panic, and [parseNetworkOptions] and
    [CreateNetwork] with it: the parser returns no configuration error
    there. *)
Theorem parseNetworkGenericOptions_panics opt label v :
  (label, v) ∈ opt →
  label = parentOpt ∨ label = driverModeOpt →
  (∀ s, v ≠ VString s) →
  parseNetworkGenericOptions (VMapSI opt) =
    Panic "interface conversion: interface {} is not string" ∧
  ∀ req w,
    cn_IPv4Data req = [] →
    mapLookup GenericData (cn_Options req) = Some (VMapSI opt) →
    CreateNetwork req w =
      (Panic "interface conversion: interface {} is not string", w).
Proof.
  intros Hin Hlabel Hv.
  pose proof (genericLoop_panics emptyConfiguration opt label v Hin Hlabel Hv)
    as Hloop.
  split; [done|].
  intros req w Hdata Hopt. unfold CreateNetwork, parseNetworkOptions.
  rewrite Hdata, Hopt. simpl. by rewrite Hloop.
Qed.

(** ** Deleting a network *)

Lemma releaseParent_spec nid n w :
  w_networks (releaseParent nid n w) = w_networks w ∧
  ∃ evs, w_log (releaseParent nid n w) = w_log w ++ evs ∧
    (evs = [] ∨
     evs = [EvDeleteLink (Parent (nw_config n))] ∧
     CreatedSlaveLink (nw_config n) = true ∧
     linkExists (Parent (nw_config n)) (w_host w) = true ∧
     (Parent (nw_config n) = getDummyName (TruncateID nid) ∨
      is_Some (parseVlan (Parent (nw_config n))))).
Proof.
  unfold releaseParent, parentExists, delDummyLink, delVlanLink, hostCall.
  destruct (CreatedSlaveLink (nw_config n)) eqn:Hc;
    [|split; [done|]; exists []; rewrite app_nil_r; auto].
  destruct (linkExists (Parent (nw_config n)) (w_host w)) eqn:Hex;
    [|split; [done|]; exists []; rewrite app_nil_r; auto].
  case_decide as Hd; simpl.
  - split; [done|]. eexists. split; [done|]. right. auto.
  - destruct (parseVlan (Parent (nw_config n))) as [p|] eqn:Hp; simpl.
    + split; [done|]. eexists. split; [done|]. right. eauto 10.
    + split; [done|]. exists []. rewrite app_nil_r. auto.
Qed.

Lemma dropEndpoint_spec ep w :
  w_networks (dropEndpoint ep w) = w_networks w ∧
  ∃ evs, w_log (dropEndpoint ep w) = w_log w ++ evs ++ [EvStoreDelete (KVEndpoint ep)] ∧
    (evs = [] ∨
     ∃ l, LinkByName (ep_srcName ep) (w_host w) = Some l ∧ evs = [EvLinkDel l]).
Proof.
  unfold dropEndpoint, storeDelete, storeCall, nlLinkDel, hostCall.
  destruct (LinkByName (ep_srcName ep) (w_host w)) as [l|] eqn:Hl; simpl.
  - split; [done|]. exists [EvLinkDel l]. rewrite <- app_assoc. eauto.
  - split; [done|]. exists []. eauto.
Qed.

(** What the loop over the endpoints may log: the removal of the record of
    an endpoint, and the deletion of a link that netlink found under the
    source name of an endpoint. *)
Lemma dropEndpoints_spec eps w :
  let w' := foldl (λ w ep, dropEndpoint ep w) w eps in
  w_networks w' = w_networks w ∧
  ∃ evs, w_log w' = w_log w ++ evs ∧
    (∀ name, EvDeleteLink name ∉ evs) ∧
    (∀ c, EvStoreDelete (KVNetwork c) ∉ evs) ∧
    (∀ l, EvLinkDel l ∈ evs →
          ∃ ep h, ep ∈ eps ∧ LinkByName (ep_srcName ep) h = Some l) ∧
    (∀ ep, ep ∈ eps → EvStoreDelete (KVEndpoint ep) ∈ evs).
Proof.
  revert w. induction eps as [|ep eps IH]; intros w; simpl.
  - split; [done|]. exists []. rewrite app_nil_r. split; [done|].
    split; [|split; [|split]].
    + intros name. apply not_elem_of_nil.
    + intros c. apply not_elem_of_nil.
    + intros l Hin. by apply elem_of_nil in Hin.
    + intros ep Hin. by apply elem_of_nil in Hin.
  - destruct (IH (dropEndpoint ep w)) as (Hn & evs & Hlog & Hdel & Hnet & Hlink & Hrec).
    destruct (dropEndpoint_spec ep w) as (Hn1 & evs1 & Hlog1 & Hevs1).
    split; [by rewrite Hn|].
    exists ((evs1 ++ [EvStoreDelete (KVEndpoint ep)]) ++ evs).
    split; [by rewrite Hlog, Hlog1, !app_assoc|].
    repeat split.
    + intros name Hin. apply elem_of_app in Hin as [Hin|Hin]; [|by eapply Hdel].
      apply elem_of_app in Hin as [Hin|Hin].
      * destruct Hevs1 as [->|(l & _ & ->)];
          [by apply elem_of_nil in Hin | by apply list_elem_of_singleton in Hin].
      * by apply list_elem_of_singleton in Hin.
    + intros c Hin. apply elem_of_app in Hin as [Hin|Hin]; [|by eapply Hnet].
      apply elem_of_app in Hin as [Hin|Hin].
      * destruct Hevs1 as [->|(l & _ & ->)];
          [by apply elem_of_nil in Hin | by apply list_elem_of_singleton in Hin].
      * by apply list_elem_of_singleton in Hin.
    + intros l Hin. apply elem_of_app in Hin as [Hin|Hin].
      * apply elem_of_app in Hin as [Hin|Hin];
          [|by apply list_elem_of_singleton in Hin].
        destruct Hevs1 as [->|(l' & Hl' & ->)]; [by apply elem_of_nil in Hin|].
        apply list_elem_of_singleton in Hin as [= ->].
        exists ep, (w_host w). split; [left|done].
      * destruct (Hlink l Hin) as (ep' & h & Hin' & Hl). exists ep', h.
        split; [by right|done].
    + intros ep' [->|Hin]%elem_of_cons.
      * apply elem_of_app. left. apply elem_of_app. right. left.
      * apply elem_of_app. right. by apply Hrec.
Qed.

(** C4.  Deleting a registered network: the parent link is handed to the
    link layer for deletion only if the driver created it, it is still on
    the host, and its name is the dummy name of the network id or has the
    VLAN sub-interface pattern; without [CreatedSlaveLink] no such call
    is made.  Whatever the link layer answers, the records of the endpoints
    and of the network are removed from the store and the network leaves
    the table. *)
Theorem DeleteNetwork_parent_ownership req w n :
  w_networks w !! dn_NetworkID req = Some n →
  ∃ evs,
    w_log (DeleteNetwork req w).2 = w_log w ++ evs ∧
    (CreatedSlaveLink (nw_config n) = false → ∀ name, EvDeleteLink name ∉ evs) ∧
    (∀ name, EvDeleteLink name ∈ evs →
       CreatedSlaveLink (nw_config n) = true ∧
       name = Parent (nw_config n) ∧
       linkExists name (w_host w) = true ∧
       (name = getDummyName (TruncateID (dn_NetworkID req)) ∨
        is_Some (parseVlan name))) ∧
    (∀ l, EvLinkDel l ∈ evs →
       ∃ k ep h, nw_endpoints n !! k = Some ep ∧
                 LinkByName (ep_srcName ep) h = Some l) ∧
    w_networks (DeleteNetwork req w).2 = delete (dn_NetworkID req) (w_networks w) ∧
    (∀ k ep, nw_endpoints n !! k = Some ep →
       EvStoreDelete (KVEndpoint ep) ∈ evs) ∧
    EvStoreDelete (KVNetwork (nw_config n)) ∈ evs.
Proof.
  intros Hn. unfold DeleteNetwork, driver_network. rewrite Hn.
  set (nid := dn_NetworkID req).
  destruct (releaseParent_spec nid n w) as (Hn1 & evs1 & Hlog1 & Hevs1).
  set (w1 := releaseParent nid n w) in *.
  destruct (dropEndpoints_spec ((rangeOrder endpoint (nw_endpoints n)).*2) w1)
    as (Hn2 & evs2 & Hlog2 & Hdel2 & Hnet2 & Hlink2 & Hrec2).
  set (w2 := foldl _ w1 _) in *.
  assert (∃ r w4, storeDelete (KVNetwork (nw_config n)) (deleteNetwork nid w2) = (r, w4)
            ∧ w_networks w4 = delete nid (w_networks w)
            ∧ w_log w4 = w_log w2 ++ [EvStoreDelete (KVNetwork (nw_config n))])
    as (r & w4 & -> & Hn4 & Hlog4).
  { unfold storeDelete, storeCall, deleteNetwork. simpl.
    eexists _, _. split; [done|]. simpl. by rewrite Hn2, Hn1. }
  exists (evs1 ++ evs2 ++ [EvStoreDelete (KVNetwork (nw_config n))]).
  assert (∀ name, EvDeleteLink name ∈
            evs1 ++ evs2 ++ [EvStoreDelete (KVNetwork (nw_config n))] →
            EvDeleteLink name ∈ evs1) as Hparent.
  { intros name [Hin|Hin]%elem_of_app; [done|].
    apply elem_of_app in Hin as [Hin|Hin]; [by destruct (Hdel2 name)|].
    by apply list_elem_of_singleton in Hin. }
  split; [|split; [|split; [|split; [|split; [|split]]]]].
  - destruct r; simpl; by rewrite Hlog4, Hlog2, Hlog1, !app_assoc.
  - intros Hc name Hin%Hparent.
    destruct Hevs1 as [->|(-> & Hc' & _)];
      [by apply elem_of_nil in Hin | congruence].
  - intros name Hin%Hparent.
    destruct Hevs1 as [->|(-> & Hc & Hex & Hpat)]; [by apply elem_of_nil in Hin|].
    apply list_elem_of_singleton in Hin as [= ->]. done.
  - intros l [Hin|Hin]%elem_of_app.
    + destruct Hevs1 as [->|(-> & _)];
        [by apply elem_of_nil in Hin | by apply list_elem_of_singleton in Hin].
    + apply elem_of_app in Hin as [Hin|Hin];
        [|by apply list_elem_of_singleton in Hin].
      destruct (Hlink2 l Hin) as (ep & h & [k Hk]%elem_of_rangeOrder & Hl).
      eauto.
  - by destruct r.
  - intros k ep Hk. apply elem_of_app. right. apply elem_of_app. left.
    apply Hrec2, elem_of_rangeOrder. eauto.
  - apply elem_of_app. right. apply elem_of_app. right. left.
Qed.

Lemma DeleteNetwork_networks nid w n :
  w_networks w !! nid = Some n →
  w_networks (DeleteNetwork (mkDeleteNetworkRequest nid) w).2 =
    delete nid (w_networks w).
Proof.
  intros Hn. unfold DeleteNetwork, driver_network. simpl. rewrite Hn.
  destruct (releaseParent_spec nid n w) as (Hn1 & _).
  destruct (dropEndpoints_spec ((rangeOrder endpoint (nw_endpoints n)).*2)
              (releaseParent nid n w)) as (Hn2 & _).
  unfold storeDelete, storeCall, deleteNetwork.
  destruct (storeRemove _ _) as [[e|] s']; simpl; by rewrite Hn2, Hn1.
Qed.

(** ** Store failures on the delete paths *)

Lemma DeleteNetwork_result nid w n :
  w_networks w !! nid = Some n →
  (DeleteNetwork (mkDeleteNetworkRequest nid) w).1 =
    match (storeRemove (KVNetwork (nw_config n))
             (w_store (beforeRecordDelete nid n w))).1 with
    | Some err => Fail (E_delete_from_datastore nid err)
    | None => Ok tt
    end.
Proof.
  intros Hn. unfold DeleteNetwork, driver_network, beforeRecordDelete. simpl.
  rewrite Hn. unfold storeDelete, storeCall. simpl.
  by destruct (storeRemove _ _) as [[e|] s'].
Qed.

(** C9, as the code has it.  [DeleteEndpoint] on an endpoint of a network
    succeeds and takes the endpoint out of the map whatever the store
    answers.  [DeleteNetwork] takes the network out of the table whatever
    the store answers, and its result is decided by the one deletion of
    the record of the network, which it asks of the store as the store is
    after the endpoints have been dropped: success if the store deletes
    the record, the error "error deleting deleting id ... from datastore"
    with the error of the store if it does not.  What the store answered
    for the records of the endpoints plays no part. *)
Theorem delete_paths_store_failure nid eid w n ep :
  validateID nid eid = None →
  w_networks w !! nid = Some n →
  nw_endpoints n !! eid = Some ep →
  let de := DeleteEndpoint (mkDeleteEndpointRequest nid eid) w in
  let dn := DeleteNetwork (mkDeleteNetworkRequest nid) w in
  de.1 = Ok tt ∧
  (∃ n', w_networks de.2 !! nid = Some n' ∧ nw_endpoints n' !! ep_id ep = None) ∧
  w_networks dn.2 = delete nid (w_networks w) ∧
  w_networks (beforeRecordDelete nid n w) = delete nid (w_networks w) ∧
  dn.1 =
    match (storeRemove (KVNetwork (nw_config n))
             (w_store (beforeRecordDelete nid n w))).1 with
    | Some err => Fail (E_delete_from_datastore nid err)
    | None => Ok tt
    end.
Proof.
  intros Hvalid Hn Hep. simpl.
  pose proof (DeleteNetwork_result nid w n Hn) as Hres.
  pose proof (DeleteNetwork_networks nid w n Hn) as Hnets.
  unfold DeleteEndpoint, driver_network, network_endpoint.
  cbn [de_NetworkID de_EndpointID]. rewrite Hvalid, Hn, Hep. cbn [fst snd].
  split; [done|]. split; [|split; [done|split; [|done]]].
  - destruct (dropEndpoint_spec ep w) as [Hd _].
    unfold deleteEndpoint, setNetworks. cbn [w_networks]. rewrite Hd.
    eexists. rewrite lookup_alter_eq, Hn. split; [done|].
    apply lookup_delete_eq.
  - unfold beforeRecordDelete, deleteNetwork, setNetworks. cbn [w_networks].
    destruct (dropEndpoints_spec ((rangeOrder endpoint (nw_endpoints n)).*2)
                (releaseParent nid n w)) as (-> & _).
    by destruct (releaseParent_spec nid n w) as (-> & _).
Qed.

(** ** The invariant of the table *)

Lemma registryInv_empty : registryInv (∅ : gmap string network).
Proof. split; intros ?; intros; simplify_map_eq. Qed.

Lemma registryInv_delete nid (t : gmap string network) :
  registryInv t → registryInv (delete nid t).
Proof.
  intros [Hkey Huniq]. split.
  - intros k n [_ Hk]%lookup_delete_Some. by apply Hkey.
  - intros k1 k2 n1 n2 [_ Hk1]%lookup_delete_Some [_ Hk2]%lookup_delete_Some.
    by apply Huniq.
Qed.

(** A change of a network that keeps its id and its configuration, as
    every change of its endpoints does. *)
Lemma registryInv_alter (f : network → network) nid (t : gmap string network) :
  (∀ n, nw_id (f n) = nw_id n ∧ nw_config (f n) = nw_config n) →
  registryInv t → registryInv (alter f nid t).
Proof.
  intros Hf [Hkey Huniq].
  assert (∀ k n, alter f nid t !! k = Some n →
            ∃ n0, t !! k = Some n0 ∧ nw_id n = nw_id n0 ∧ nw_config n = nw_config n0)
    as Hback.
  { intros k n Hk. destruct (decide (nid = k)) as [->|Hne].
    - rewrite lookup_alter_eq in Hk.
      destruct (t !! k) as [n0|] eqn:Hk0; simplify_eq/=.
      exists n0. by destruct (Hf n0).
    - rewrite lookup_alter_ne in Hk by done. eauto. }
  split.
  - intros k n (n0 & Hk0 & -> & ->)%Hback. by apply Hkey.
  - intros k1 k2 n1 n2 (m1 & Hk1 & _ & ->)%Hback (m2 & Hk2 & _ & ->)%Hback.
    by apply Huniq.
Qed.

Lemma registryInv_insert_new config config' (t : gmap string network) :
  (∀ k n, t !! k = Some n → Parent config ≠ Parent (nw_config n)) →
  ID config' = ID config → Parent config' = Parent config →
  registryInv t →
  registryInv (<[ID config := mkNetwork (ID config) ∅ config']> t).
Proof.
  intros Hfree Hid Hpar [Hkey Huniq]. split.
  - intros k n [[<- <-]|[_ Hk]]%lookup_insert_Some; [done|]. by apply Hkey.
  - intros k1 k2 n1 n2 Hk1 Hk2 Hp.
    apply lookup_insert_Some in Hk1 as [[<- <-]|[Hne1 Hk1]];
      apply lookup_insert_Some in Hk2 as [[<- <-]|[Hne2 Hk2]]; simpl in *.
    + done.
    + destruct (Hfree k2 n2 Hk2). congruence.
    + destruct (Hfree k1 n1 Hk1). congruence.
    + by eapply Huniq.
Qed.

Lemma createNetwork_other config w r config' w' :
  createNetwork config w = (r, config', w') →
  r ≠ Ok false →
  w_networks w' = w_networks w.
Proof.
  unfold createNetwork, createDummyLink, createVlanLink, hostCall.
  intros Hrun Hr.
  destruct (scanNetworks config (getNetworks w)) as [[]| |];
    repeat (case_match || case_decide); simplify_eq/=; done.
Qed.

Lemma createNetwork_registryInv config w :
  registryInv (w_networks w) →
  registryInv (w_networks (createNetwork config w).2).
Proof.
  intros Hinv.
  destruct (createNetwork config w) as [[r config'] w'] eqn:Hrun. simpl.
  assert (r = Ok false ∨ r ≠ Ok false) as [->|Hr]
    by (destruct r as [[]| |]; auto).
  - apply createNetwork_new in Hrun as (Hfree & Hid & Hpar & -> & _).
    by apply registryInv_insert_new.
  - by rewrite (createNetwork_other _ _ _ _ _ Hrun Hr).
Qed.

Lemma CreateNetwork_registryInv req w :
  registryInv (w_networks w) →
  registryInv (w_networks (CreateNetwork req w).2).
Proof.
  intros Hinv. rewrite CreateNetwork_parts.
  destruct (requestedConfig req) as [config| |]; [|done..].
  unfold registerAndStore.
  pose proof (createNetwork_registryInv config w Hinv) as Hinv'.
  destruct (createNetwork config w) as [[r config'] w']. simpl in Hinv'.
  destruct r as [[]| |]; try done.
  unfold storeUpdate, storeCall.
  destruct (storePut _ _) as [[e|] s']; simpl; [|done].
  by apply registryInv_delete.
Qed.

Lemma DeleteNetwork_registryInv req w :
  registryInv (w_networks w) →
  registryInv (w_networks (DeleteNetwork req w).2).
Proof.
  intros Hinv. destruct req as [nid].
  destruct (w_networks w !! nid) as [n|] eqn:Hn.
  - rewrite (DeleteNetwork_networks nid w n Hn). by apply registryInv_delete.
  - unfold DeleteNetwork, driver_network. simpl. by rewrite Hn.
Qed.

Lemma CreateEndpoint_registryInv req w :
  registryInv (w_networks w) →
  registryInv (w_networks (CreateEndpoint req w).2).
Proof.
  intros Hinv.
  unfold CreateEndpoint, getNetwork, HardwareAddr_of_string, storeUpdate,
    storeCall, addEndpoint.
  repeat case_match; simplify_eq/=; try done.
  by apply registryInv_alter.
Qed.

Lemma DeleteEndpoint_registryInv req w :
  registryInv (w_networks w) →
  registryInv (w_networks (DeleteEndpoint req w).2).
Proof.
  intros Hinv. unfold DeleteEndpoint, driver_network, deleteEndpoint.
  destruct (validateID _ _); [done|].
  destruct (w_networks w !! de_NetworkID req) as [n|]; [|done].
  destruct (network_endpoint _ n) as [ep|]; [|done].
  cbn [snd setNetworks w_networks].
  destruct (dropEndpoint_spec ep w) as [-> _].
  by apply registryInv_alter.
Qed.

Lemma Join_registryInv req w :
  registryInv (w_networks w) →
  registryInv (w_networks (Join req w).2).
Proof.
  intros Hinv.
  unfold Join, getNetwork, generateIfaceName, createMacVlan, hostCall,
    storeUpdate, storeCall, setSrcName.
  repeat case_match; simplify_eq/=; try done;
    by apply registryInv_alter.
Qed.

Lemma step_registryInv w w' :
  step w w' → registryInv (w_networks w) → registryInv (w_networks w').
Proof.
  destruct 1 as [req w|req w|req w|req w|req w|config w|w w' Hsame]; intros Hinv.
  - by apply CreateNetwork_registryInv.
  - by apply DeleteNetwork_registryInv.
  - by apply CreateEndpoint_registryInv.
  - by apply DeleteEndpoint_registryInv.
  - by apply Join_registryInv.
  - by apply createNetwork_registryInv.
  - by rewrite Hsame.
Qed.

(** [createNetwork] is its loop followed by its remainder. *)
Lemma createNetwork_phases config w :
  createNetwork config w =
    match scanNetworks config (getNetworks w) with
    | Ok foundExisting => createNetworkAfterScan foundExisting config w
    | Fail err => (Fail err, config, w)
    | Panic msg => (Panic msg, config, w)
    end.
Proof. reflexivity. Qed.

(** C5, as the code has it.  In every state the driver reaches by
    handlers that run one at a time, every network of the table is filed
    under its id, and two entries of the table on the same parent are one
    entry: no two networks share a parent.  Every further such step keeps
    it so. *)
Theorem reachable_parents_unique w :
  reachable w →
  registryInv (w_networks w) ∧
  (∀ n1 n2,
     n1 ∈ getNetworks w → n2 ∈ getNetworks w →
     Parent (nw_config n1) = Parent (nw_config n2) →
     ID (nw_config n1) = ID (nw_config n2) ∧ n1 = n2) ∧
  (∀ w', step w w' → registryInv (w_networks w')).
Proof.
  intros Hreach.
  assert (registryInv (w_networks w)) as Hinv.
  { induction Hreach as [h s r|w w' _ IH Hstep].
    - apply registryInv_empty.
    - by eapply step_registryInv. }
  split; [done|]. split.
  - destruct Hinv as [Hkey Huniq].
    intros n1 n2 [k1 Hk1]%elem_of_getNetworks [k2 Hk2]%elem_of_getNetworks Hp.
    assert (k1 = k2) as -> by by eapply Huniq.
    split; congruence.
  - intros w' Hstep. by eapply step_registryInv.
Qed.

(** ** The rollback of [CreateNetwork] *)

(** When the store refuses the record of a network that [createNetwork] has
    just registered, [CreateNetwork] takes the network out of the table
    and returns the error of the store.  The host stays as [createNetwork]
    left it, and the one call made after [createNetwork] is the write to the
    store: a link created for the network is not removed. *)
Lemma CreateNetwork_rollback req w config config' w' err s' :
  requestedConfig req = Ok config →
  createNetwork config w = (Ok false, config', w') →
  storePut (KVNetwork config') (w_store w') = (Some err, s') →
  (CreateNetwork req w).1 = Fail (E_collaborator err) ∧
  w_networks (CreateNetwork req w).2 = delete (ID config) (w_networks w) ∧
  w_host (CreateNetwork req w).2 = w_host w' ∧
  w_log (CreateNetwork req w).2 = w_log w' ++ [EvStorePut (KVNetwork config')].
Proof.
  intros Hreq Hrun Hput.
  rewrite CreateNetwork_parts, Hreq. unfold registerAndStore. rewrite Hrun.
  unfold storeUpdate, storeCall. rewrite Hput. simpl.
  apply createNetwork_new in Hrun as (_ & -> & _ & -> & _).
  by rewrite delete_insert_eq.
Qed.

(** ** Creating an endpoint *)

(** The record of the endpoint goes to the store first; if the store
    refuses it, the call fails and the table is as it was. *)
Lemma CreateEndpoint_store_failure req w n ifc :
  validateID (ce_NetworkID req) (ce_EndpointID req) = None →
  w_networks w !! ce_NetworkID req = Some n →
  ce_Interface req = Some ifc →
  let ep := mkEndpoint (ce_EndpointID req) (ce_NetworkID req)
              (Some (list_byte_of_string (MacAddress ifc))) "" 0 false in
  ∀ err s',
    storePut (KVEndpoint ep) (w_store w) = (Some err, s') →
    (CreateEndpoint req w).1 = Fail (E_save_endpoint (ce_EndpointID req) err) ∧
    w_networks (CreateEndpoint req w).2 = w_networks w.
Proof.
  intros Hvalid Hn Hifc ep err s' Hput.
  unfold CreateEndpoint, getNetwork, HardwareAddr_of_string, storeUpdate, storeCall.
  rewrite Hvalid, Hn, Hifc. simpl. fold ep. by rewrite Hput.
Qed.

(** The address of the endpoint is the text of the request taken byte by
    byte, also when that text is empty, and [GenerateMACFromIP] is never
    called: the source of randomness is left as it was. *)
Lemma CreateEndpoint_mac req w resp w' ifc :
  ce_Interface req = Some ifc →
  CreateEndpoint req w = (Ok resp, w') →
  w_rng w' = w_rng w ∧
  cer_Interface resp =
    Some (mkEndpointInterface "" ""
            (hardwareAddrBuf 0 (list_byte_of_string (MacAddress ifc)))) ∧
  ∃ n ep, w_networks w' !! ce_NetworkID req = Some n ∧
          nw_endpoints n !! ce_EndpointID req = Some ep ∧
          ep_mac ep = Some (list_byte_of_string (MacAddress ifc)).
Proof.
  intros Hifc.
  unfold CreateEndpoint, getNetwork, HardwareAddr_of_string, storeUpdate,
    storeCall, addEndpoint.
  rewrite Hifc.
  destruct (validateID _ _); [done|].
  destruct (w_networks w !! ce_NetworkID req) as [n|] eqn:Hn; [|done].
  simpl. destruct (storePut _ _) as [[e|] s']; simpl; [done|].
  intros [= <- <-]. simpl. repeat split; try done.
  eexists _, _. rewrite lookup_alter_eq, Hn. simpl.
  split; [done|]. cbn [nw_endpoints withEndpoints].
  by rewrite lookup_insert_eq.
Qed.

(** ** Joining twice *)

Lemma Join_ok req w resp w1 :
  Join req w = (Ok resp, w1) →
  ∃ n ep, w_networks w1 !! j_NetworkID req = Some n ∧
          nw_endpoints n !! j_EndpointID req = Some ep.
Proof.
  unfold Join, getNetwork, generateIfaceName, createMacVlan, hostCall,
    storeUpdate, storeCall, driver_network, network_endpoint.
  intros Hrun.
  repeat case_match; simplify_eq/=.
  match goal with
  | Hb : _ ≫= _ = Some _ |- _ => apply bind_Some in Hb as (n1 & Hn1 & Hep1)
  end.
  eauto.
Qed.

(** C8, as the code has it.  [Join] does not look at the source interface
    name of the endpoint.  After a [Join] that succeeded, a second [Join]
    of the same endpoint, given a new interface name by the generator, asks
    the link layer for one more macvlan interface on the parent; if it
    succeeds it returns the name the link layer gave to that new interface,
    which replaces the one recorded on the endpoint, and if it fails the
    error is that of the link layer or of the store. *)
Theorem Join_twice_creates_again req w resp1 w1 name rg :
  Join req w = (Ok resp1, w1) →
  GenerateIfaceName vethPrefix vethLen (w_host w1) (w_rng w1) = (inr name, rg) →
  ∃ n evs,
    w_networks w1 !! j_NetworkID req = Some n ∧
    w_log (Join req w1).2 =
      w_log w1 ++
      EvCreateMacvlan name (Parent (nw_config n)) (MacvlanMode (nw_config n))
      :: evs ∧
    (∀ resp2, (Join req w1).1 = Ok resp2 →
       (∃ h2, createMacvlanSlave name (Parent (nw_config n))
                (MacvlanMode (nw_config n)) (w_host w1) = (inr (SrcName resp2), h2)) ∧
       ∃ n2 ep2, w_networks (Join req w1).2 !! j_NetworkID req = Some n2 ∧
                 nw_endpoints n2 !! j_EndpointID req = Some ep2 ∧
                 ep_srcName ep2 = SrcName resp2) ∧
    (∀ e, (Join req w1).1 = Fail e →
       (∃ msg, e = E_collaborator msg) ∨ (∃ eid msg, e = E_save_endpoint eid msg)).
Proof.
  intros (n & ep & Hn & Hep)%Join_ok Hgen.
  unfold Join, getNetwork, generateIfaceName, createMacVlan, hostCall,
    storeUpdate, storeCall, driver_network, network_endpoint, setSrcName.
  rewrite Hn, Hep, Hgen. cbn [fst snd setRng w_host w_rng w_networks w_log
    w_store setNetworks].
  destruct (createMacvlanSlave name _ _ (w_host w1)) as [[err|vethName] h2] eqn:Hmac;
    cbn [fst snd w_networks w_log w_store w_host w_rng].
  - exists n, []. split; [done|]. split; [done|].
    split; intros; simplify_eq; eauto.
  - rewrite lookup_alter_eq, Hn. cbn [fmap option_fmap option_map mbind option_bind
      nw_endpoints withEndpoints].
    rewrite lookup_alter_eq, Hep. cbn [fmap option_fmap option_map].
    destruct (storePut _ _) as [[e|] s']; cbn [fst snd w_networks w_log].
    + eexists n, _. split; [done|]. split; [by rewrite <- app_assoc|].
      split; intros; simplify_eq; eauto.
    + eexists n, _. split; [done|]. split; [by rewrite <- app_assoc|].
      split; [|done].
      intros resp2 [= <-]. simpl. split; [eauto|].
      eexists _, _. rewrite lookup_alter_eq, Hn.
      cbn [fmap option_fmap option_map]. split; [done|].
      cbn [nw_endpoints withEndpoints]. rewrite lookup_alter_eq, Hep. done.
Qed.

End Properties.

(** * Further properties of the driver *)

Section Lifecycle.
Context `{Env}.
Implicit Types (w : world) (config : configuration) (n nw : network).

(** ** Option parsing *)

Lemma mapLookup_Some {A} key (m : list (string * A)) v :
  NoDup m.*1 → (mapLookup key m = Some v ↔ (key, v) ∈ m).
Proof.
  induction m as [|[k x] m IH]; simpl; intros Hnd.
  - split; [done|]. intros Hin. by apply elem_of_nil in Hin.
  - apply NoDup_cons in Hnd as [Hk Hnd]. case_decide as Hd.
    + subst k. split.
      * intros [= ->]. left.
      * intros [[= ->]|Hin]%elem_of_cons; [done|].
        destruct Hk. apply list_elem_of_fmap. by exists (key, v).
    + rewrite (IH Hnd). split; [by right|].
      intros [[= -> ->]|Hin]%elem_of_cons; done.
Qed.

Lemma mapLookup_None {A} key (m : list (string * A)) :
  mapLookup key m = None ↔ key ∉ m.*1.
Proof.
  induction m as [|[k x] m IH]; simpl.
  - split; [intros _; apply not_elem_of_nil|done].
  - case_decide as Hd.
    + subst k. split; [done|]. intros Hn. destruct Hn. left.
    + rewrite IH, not_elem_of_cons. split; [by split | by intros [_ ?]].
Qed.

Lemma parentOpt_ne_driverModeOpt : parentOpt ≠ driverModeOpt.
Proof. discriminate. Qed.

(** The text under a key of a generic-data map, or a default. *)
Lemma genericLoop_spec config opt :
  NoDup opt.*1 →
  (∀ v, mapLookup parentOpt opt = Some v → ∃ s, v = VString s) →
  (∀ v, mapLookup driverModeOpt opt = Some v → ∃ s, v = VString s) →
  genericLoop config opt =
    Ok (mkConfiguration (ID config)
          (match mapLookup parentOpt opt with
           | Some (VString s) => s
           | _ => Parent config
           end)
          (match mapLookup driverModeOpt opt with
           | Some (VString s) => s
           | _ => MacvlanMode config
           end)
          (Internal config) (CreatedSlaveLink config)).
Proof.
  revert config. induction opt as [|[label value] opt IH];
    intros config Hnd Hp Hm; simpl in *.
  - by destruct config.
  - apply NoDup_cons in Hnd as [Hk Hnd]. simpl in Hk.
    destruct (decide (label = parentOpt)) as [->|Hlp].
    + rewrite decide_False in Hm |- * by apply parentOpt_ne_driverModeOpt.
      destruct (Hp value eq_refl) as [s ->].
      rewrite (IH _ Hnd); simpl.
      * by rewrite (proj2 (mapLookup_None parentOpt opt) Hk).
      * intros v Hv. apply mapLookup_Some in Hv; [|done].
        destruct Hk. apply list_elem_of_fmap. by exists (parentOpt, v).
      * done.
    + destruct (decide (label = driverModeOpt)) as [->|Hlm].
      * destruct (Hm value eq_refl) as [s ->].
        rewrite (IH _ Hnd); simpl.
        -- by rewrite (proj2 (mapLookup_None driverModeOpt opt) Hk).
        -- done.
        -- intros v Hv. apply mapLookup_Some in Hv; [|done].
           destruct Hk. apply list_elem_of_fmap. by exists (driverModeOpt, v).
      * by rewrite (IH _ Hnd).
Qed.

Lemma mapLookup_perm {A} key (m1 m2 : list (string * A)) :
  NoDup m1.*1 → m1 ≡ₚ m2 → mapLookup key m1 = mapLookup key m2.
Proof.
  intros Hnd Hperm.
  assert (NoDup m2.*1) as Hnd2 by by rewrite <- Hperm.
  destruct (mapLookup key m1) as [v|] eqn:H1.
  - symmetry. apply mapLookup_Some; [done|]. rewrite <- Hperm.
    by apply mapLookup_Some.
  - symmetry. apply mapLookup_None. rewrite <- Hperm. by apply mapLookup_None.
Qed.

Lemma genericLoop_keeps config opt c :
  genericLoop config opt = Ok c →
  ID c = ID config ∧ Internal c = Internal config ∧
  CreatedSlaveLink c = CreatedSlaveLink config.
Proof.
  revert config. induction opt as [|[label value] opt IH]; intros config; simpl.
  - by intros [= <-].
  - repeat case_decide; try destruct value; try done;
      intros Hrun; by destruct (IH _ Hrun) as (-> & -> & ->).
Qed.

Lemma fromOptions_keeps config labels :
  ID (fromOptions config labels) = ID config ∧
  Internal (fromOptions config labels) = Internal config ∧
  CreatedSlaveLink (fromOptions config labels) = CreatedSlaveLink config.
Proof.
  revert config. induction labels as [|[label value] labels IH]; intros config;
    simpl; [done|].
  repeat case_decide; by destruct (IH (withParent value config)) as (-> & -> & ->)
    || by destruct (IH (withMacvlanMode value config)) as (-> & -> & ->)
    || by destruct (IH config) as (-> & -> & ->).
Qed.

(** X1.  A generic-data map whose keys are distinct and whose values
    under "parent" and "macvlan_mode", if any, are strings is parsed into
    the configuration with these two texts (the empty text for a key that
    is absent); all other keys are ignored, and nothing else is set. *)
Theorem parseNetworkGenericOptions_reads opt :
  NoDup opt.*1 →
  (∀ v, mapLookup parentOpt opt = Some v → ∃ s, v = VString s) →
  (∀ v, mapLookup driverModeOpt opt = Some v → ∃ s, v = VString s) →
  parseNetworkGenericOptions (VMapSI opt) =
    Ok (mkConfiguration ""
          (match mapLookup parentOpt opt with Some (VString s) => s | _ => "" end)
          (match mapLookup driverModeOpt opt with Some (VString s) => s | _ => "" end)
          false false).
Proof. intros Hnd Hp Hm. by apply (genericLoop_spec emptyConfiguration). Qed.

(** X2.  The order in which the loop visits the entries of a generic-data
    map does not matter: two enumerations of a map give the same
    configuration, or both panic. *)
Theorem parseNetworkGenericOptions_order opt1 opt2 :
  NoDup opt1.*1 → opt1 ≡ₚ opt2 →
  parseNetworkGenericOptions (VMapSI opt1) = parseNetworkGenericOptions (VMapSI opt2).
Proof.
  intros Hnd Hperm. simpl.
  assert (NoDup opt2.*1) as Hnd2 by by rewrite <- Hperm.
  pose proof (mapLookup_perm parentOpt _ _ Hnd Hperm) as Hlp.
  pose proof (mapLookup_perm driverModeOpt _ _ Hnd Hperm) as Hlm.
  assert (∀ key v, key = parentOpt ∨ key = driverModeOpt →
            mapLookup key opt1 = Some v → (∀ s, v ≠ VString s) →
            genericLoop emptyConfiguration opt1 = genericLoop emptyConfiguration opt2)
    as Hpanic.
  { intros key v Hkey Hv Hns. apply mapLookup_Some in Hv; [|done].
    rewrite (genericLoop_panics _ opt1 key v), (genericLoop_panics _ opt2 key v);
      try done.
    by rewrite <- Hperm. }
  destruct (mapLookup parentOpt opt1) as [vp|] eqn:Hp1;
    destruct (mapLookup driverModeOpt opt1) as [vm|] eqn:Hm1;
    try (destruct vp; try by (eapply (Hpanic parentOpt); eauto));
    try (destruct vm; try by (eapply (Hpanic driverModeOpt); eauto));
    rewrite !genericLoop_spec; try done;
    rewrite <- ?Hlp, <- ?Hlm, ?Hp1, ?Hm1; try done;
    intros v [= <-]; eauto.
Qed.

(** X3.  [fromOptions] on a map with distinct keys: the parent and the
    mode become the values under "parent" and "macvlan_mode", a key that
    is absent leaves its field as it was, and the other fields are never
    touched. *)
Theorem fromOptions_reads config labels :
  NoDup labels.*1 →
  fromOptions config labels =
    mkConfiguration (ID config)
      (default (Parent config) (mapLookup parentOpt labels))
      (default (MacvlanMode config) (mapLookup driverModeOpt labels))
      (Internal config) (CreatedSlaveLink config).
Proof.
  revert config. induction labels as [|[label value] labels IH];
    intros config Hnd; simpl.
  - by destruct config.
  - apply NoDup_cons in Hnd as [Hk Hnd]. simpl in Hk.
    case_decide as Hp.
    + subst label. rewrite decide_False by apply parentOpt_ne_driverModeOpt.
      rewrite (IH _ Hnd). simpl.
      by rewrite (proj2 (mapLookup_None parentOpt labels) Hk).
    + case_decide as Hm.
      * subst label. rewrite (IH _ Hnd). simpl.
        by rewrite (proj2 (mapLookup_None driverModeOpt labels) Hk).
      * by rewrite (IH _ Hnd).
Qed.

(** X4.  Whatever the options, a configuration that [parseNetworkOptions]
    returns has no id and is not marked as owning its link, and it is
    internal exactly if the option "com.docker.network.internal" is the
    boolean true: any other value of that option is ignored without an
    error. *)
Theorem parseNetworkOptions_fields id option config :
  parseNetworkOptions id option = Ok config →
  ID config = "" ∧ CreatedSlaveLink config = false ∧
  (Internal config = true ↔ mapLookup InternalLabel option = Some (VBool true)).
Proof.
  assert (∀ c, ID c = "" → Internal c = false → CreatedSlaveLink c = false →
            match mapLookup InternalLabel option with
            | Some (VBool true) => Ok (withInternal true c)
            | _ => Ok c
            end = Ok config →
            ID config = "" ∧ CreatedSlaveLink config = false ∧
            (Internal config = true ↔
             mapLookup InternalLabel option = Some (VBool true))) as Htail.
  { intros c Hid Hint Hc.
    destruct (mapLookup InternalLabel option) as [[| [] | | | | |]|];
      intros [= <-]; simpl; rewrite ?Hint; naive_solver. }
  unfold parseNetworkOptions, parseNetworkGenericOptions.
  destruct (mapLookup GenericData option) as [[| | | | |m|m]|]; try done.
  - by apply Htail.
  - destruct (genericLoop emptyConfiguration m) as [c| |] eqn:Hloop; [|done..].
    apply genericLoop_keeps in Hloop as (Hid & Hint & Hc). by apply Htail.
  - destruct (fromOptions_keeps emptyConfiguration m) as (Hid & Hint & Hc).
    by apply Htail.
  - by apply Htail.
Qed.

(** X5.  Generic data that is neither nil nor a map (a string, a number, a
    boolean, a list) makes [CreateNetwork] fail with the bad-request error
    "unrecognized network configuration format", and nothing is done. *)
Theorem CreateNetwork_unrecognized_options req w v :
  poolsAccepted req →
  mapLookup GenericData (cn_Options req) = Some v →
  v ≠ VNil → (∀ m, v ≠ VMapSI m) → (∀ m, v ≠ VMapSS m) →
  CreateNetwork req w = (Fail (E_unrecognized_format v), w).
Proof.
  intros Hpools Hv Hnil Hsi Hss.
  unfold CreateNetwork, parseNetworkOptions, poolsAccepted in *. rewrite Hv.
  destruct (cn_IPv4Data req) as [|[d|] rest]; [|rewrite decide_False by tauto|done];
    destruct v; simpl; try done; by destruct (Hsi m) || by destruct (Hss m).
Qed.

Lemma parseNetworkOptions_created id option config :
  parseNetworkOptions id option = Ok config → CreatedSlaveLink config = false.
Proof.
  unfold parseNetworkOptions, parseNetworkGenericOptions.
  destruct (mapLookup GenericData option) as [[| | | | |m|m]|]; try done;
    try (destruct (genericLoop emptyConfiguration m) as [c| |] eqn:Hloop;
         [apply genericLoop_keeps in Hloop as (_ & _ & Hc)|done..]);
    try pose proof (fromOptions_keeps emptyConfiguration m) as (_ & _ & Hc);
    repeat case_match; intros; simplify_eq/=; done.
Qed.

(** ** Validation in [CreateNetwork] *)

Lemma requestedConfig_valid req config :
  requestedConfig req = Ok config →
  CreatedSlaveLink config = false ∧ MacvlanMode config ∈ validModes.
Proof.
  unfold requestedConfig, validModes. intros Hreq.
  assert (∃ parsed,
            parseNetworkOptions (cn_NetworkID req) (cn_Options req) = Ok parsed)
    as [parsed Hparse].
  { destruct (parseNetworkOptions _ _) as [parsed| |]; [by eexists|..];
      destruct (cn_IPv4Data req) as [|[d|] rest]; simpl in Hreq;
      repeat case_decide; done. }
  rewrite Hparse in Hreq. apply parseNetworkOptions_created in Hparse.
  destruct (cn_IPv4Data req) as [|[d|] rest]; simpl in Hreq;
    repeat case_decide; simplify_eq/=; (split; [done|]);
    repeat (first [by left | right]).
Qed.

(** X6.  A mode other than "", "bridge", "private", "passthru" and "vepa"
    makes [CreateNetwork] fail with the error that names the mode, and
    nothing is done. *)
Theorem CreateNetwork_invalid_mode req w parsed :
  poolsAccepted req →
  parseNetworkOptions (cn_NetworkID req) (cn_Options req) = Ok parsed →
  MacvlanMode parsed ∉ "" :: validModes →
  CreateNetwork req w = (Fail (E_invalid_mode (MacvlanMode parsed)), w).
Proof.
  intros Hpools Hparse Hmode. unfold CreateNetwork, poolsAccepted in *.
  rewrite Hparse.
  repeat (apply not_elem_of_cons in Hmode as [? Hmode]).
  destruct (cn_IPv4Data req) as [|[d|] rest];
    [|rewrite decide_False by tauto|done]; simpl;
    rewrite !decide_False by tauto; done.
Qed.

(** X7.  The parent "lo" makes [CreateNetwork] fail with the error
    "loopback interface is not a valid ... parent link", once the mode has
    passed, and nothing is done. *)
Theorem CreateNetwork_loopback req w parsed :
  poolsAccepted req →
  parseNetworkOptions (cn_NetworkID req) (cn_Options req) = Ok parsed →
  MacvlanMode parsed ∈ "" :: validModes →
  Parent parsed = "lo" →
  CreateNetwork req w = (Fail E_loopback_parent, w).
Proof.
  intros Hpools Hparse Hmode Hlo. unfold CreateNetwork, poolsAccepted in *.
  rewrite Hparse.
  assert (∀ m, Parent (withMacvlanMode m (withID (cn_NetworkID req) parsed)) = "lo")
    as Hlo' by done.
  destruct (cn_IPv4Data req) as [|[d|] rest];
    [|rewrite decide_False by tauto|done]; simpl;
    repeat case_decide; try done;
    repeat (apply elem_of_cons in Hmode as [?|Hmode]; [tauto|]);
    by apply elem_of_nil in Hmode.
Qed.

(** X8.  The empty mode stands for "bridge": two requests of one id whose
    parsed options differ only in that the one has no mode and the other
    the mode "bridge" are served alike. *)
Theorem CreateNetwork_default_mode req1 req2 w parsed :
  cn_NetworkID req1 = cn_NetworkID req2 →
  cn_IPv4Data req1 = cn_IPv4Data req2 →
  parseNetworkOptions (cn_NetworkID req1) (cn_Options req1) = Ok parsed →
  MacvlanMode parsed = "" →
  parseNetworkOptions (cn_NetworkID req2) (cn_Options req2)
    = Ok (withMacvlanMode modeBridge parsed) →
  CreateNetwork req1 w = CreateNetwork req2 w.
Proof.
  intros Hid Hdata Hp1 Hmode Hp2. unfold CreateNetwork.
  rewrite Hp1, Hp2, Hid, Hdata. simpl. rewrite Hmode. simpl. done.
Qed.

(** A first IPv4 descriptor that is a nil pointer makes
    [CreateNetwork] panic, before anything is done. *)
Theorem CreateNetwork_nil_pool_panics req w rest :
  cn_IPv4Data req = None :: rest →
  CreateNetwork req w =
    (Panic "invalid memory address or nil pointer dereference", w).
Proof. intros Hdata. unfold CreateNetwork. by rewrite Hdata. Qed.

(** ** What [createNetwork] and [CreateNetwork] do to the world *)

(** The link that [createNetwork] asks for when the parent is missing. *)
Lemma createNetwork_log config w :
  let r := createNetwork config w in
  w_store r.2 = w_store w ∧ w_rng r.2 = w_rng w ∧
  ∃ evs, w_log r.2 = w_log w ++ evs ∧
    (evs = [] ∨
     parentExists (Parent config) w = false ∧
     (evs = [EvCreateDummy (Parent config)] ∧
        Parent config = getDummyName (TruncateID (ID config)) ∨
      evs = [EvCreateVlan (Parent config)] ∧
        Parent config ≠ getDummyName (TruncateID (ID config)))).
Proof.
  unfold createNetwork, createDummyLink, createVlanLink, hostCall.
  destruct (scanNetworks config (getNetworks w)) as [found| |];
    [|simpl; split; [done|split; [done|exists []; rewrite app_nil_r; auto]]..].
  destruct (parentExists (Parent config) w) eqn:Hex; simpl.
  { destruct found; simpl; split; try done; split; try done;
      exists []; rewrite app_nil_r; auto. }
  case_decide as Hd.
  - destruct (createDummy _ _) as [[e|] h']; destruct found; simpl;
      (split; [done|split; [done|]]); eexists; (split; [done|]); right; auto.
  - destruct (parseVlan (Parent config)) as [[base vid]|];
      [destruct (linkExists base (w_host w))|];
      try destruct (createVlanSubinterface _ _) as [[e|] h'];
      destruct found; simpl; (split; [done|split; [done|]]);
      first [ by exists []; rewrite app_nil_r; auto
            | eexists; (split; [done|]); right; split; [done|]; right; auto ].
Qed.

Lemma createNetwork_new_exact config w config' w' :
  createNetwork config w = (Ok false, config', w') →
  config' = (if parentExists (Parent config) w then config
             else withCreatedSlaveLink true config) ∧
  w_log w' =
    w_log w ++
    (if parentExists (Parent config) w then []
     else if decide (Parent config = getDummyName (TruncateID (ID config)))
          then [EvCreateDummy (Parent config)]
          else [EvCreateVlan (Parent config)]).
Proof.
  unfold createNetwork, createDummyLink, createVlanLink, hostCall.
  destruct (scanNetworks config (getNetworks w)) as [[]| |]; try done.
  - repeat (case_match || case_decide); intros; simplify_eq/=.
  - destruct (parentExists (Parent config) w) eqn:Hex; simpl.
    { intros [= <- <-]. simpl. by rewrite app_nil_r. }
    case_decide as Hd.
    + rewrite decide_True by done.
      destruct (createDummy _ _) as [[e|] h']; simpl; intros; by simplify_eq/=.
    + rewrite decide_False by done.
      destruct (parseVlan (Parent config)) as [[base vid]|];
        [destruct (linkExists base (w_host w))|];
        try destruct (createVlanSubinterface _ _) as [[e|] h'];
        simpl; intros; by simplify_eq/=.
Qed.

(** X9.  The calls [CreateNetwork] makes: at most the creation of one
    link, a dummy link or a VLAN sub-interface, followed by at most one
    write of the configuration of the requested id to the store.  It never
    deletes a link or a record and never creates a macvlan interface. *)
Theorem CreateNetwork_calls req w :
  ∃ links puts,
    w_log (CreateNetwork req w).2 = w_log w ++ links ++ puts ∧
    (links = [] ∨ ∃ p, links = [EvCreateDummy p] ∨ links = [EvCreateVlan p]) ∧
    (puts = [] ∨
     ∃ c, puts = [EvStorePut (KVNetwork c)] ∧ ID c = cn_NetworkID req).
Proof.
  rewrite CreateNetwork_parts.
  destruct (requestedConfig req) as [config| |] eqn:Hreq;
    [|exists [], []; rewrite app_nil_r; auto..].
  apply requestedConfig_ID in Hreq.
  unfold registerAndStore.
  destruct (createNetwork_log config w) as (_ & _ & links & Hlog & Hlinks).
  destruct (createNetwork config w) as [[r config'] w'] eqn:Hrun. simpl in Hlog.
  assert (links = [] ∨ ∃ p, links = [EvCreateDummy p] ∨ links = [EvCreateVlan p])
    as Hkind.
  { destruct Hlinks as [->|(_ & [[-> _]|[-> _]])]; eauto. }
  destruct r as [[]| |]; simpl;
    [exists links, []; rewrite app_nil_r; auto| |
     exists links, []; rewrite app_nil_r; auto..].
  assert (ID config' = cn_NetworkID req) as Hid'.
  { apply createNetwork_new in Hrun as (_ & -> & _). done. }
  unfold storeUpdate, storeCall.
  destruct (storePut _ _) as [[e|] s']; simpl;
    exists links, [EvStorePut (KVNetwork config')];
    (split; [by rewrite Hlog, app_assoc|]); eauto.
Qed.

(** X10.  [CreateNetwork] for an id that is not in the table either
    succeeds or leaves the table as it was: after the rollback, too, the
    table is the one from before the call. *)
Theorem CreateNetwork_failure_keeps_table req w :
  w_networks w !! cn_NetworkID req = None →
  (CreateNetwork req w).1 ≠ Ok tt →
  w_networks (CreateNetwork req w).2 = w_networks w.
Proof.
  intros Hfresh. rewrite CreateNetwork_parts.
  destruct (requestedConfig req) as [config| |] eqn:Hreq; [|done..].
  apply requestedConfig_ID in Hreq. unfold registerAndStore.
  destruct (createNetwork config w) as [[r config'] w'] eqn:Hrun.
  destruct r as [[]| |]; simpl;
    try (intros _; by eapply createNetwork_other).
  apply createNetwork_new in Hrun as (_ & Hid & _ & Hnets & _).
  unfold storeUpdate, storeCall.
  destruct (storePut _ _) as [[e|] s']; simpl; [|done].
  intros _. rewrite Hnets, Hid, delete_insert_eq, Hreq. by apply delete_id.
Qed.

(** X11.  What a successful [CreateNetwork] leaves behind: the table has
    gained (or replaced) the entry of the requested id, a network without
    endpoints whose mode is one of the four; no other network was on its
    parent; its configuration owns the link exactly if the parent was not
    on the host before the call; and the calls made are the creation of
    that link, if it was missing, and the write of this very configuration
    to the store. *)
Theorem CreateNetwork_registers req w w1 :
  CreateNetwork req w = (Ok tt, w1) →
  ∃ config,
    w_networks w1 =
      <[cn_NetworkID req := mkNetwork (cn_NetworkID req) ∅ config]> (w_networks w) ∧
    ID config = cn_NetworkID req ∧
    MacvlanMode config ∈ validModes ∧
    CreatedSlaveLink config = negb (parentExists (Parent config) w) ∧
    (∀ k n, w_networks w !! k = Some n → Parent (nw_config n) ≠ Parent config) ∧
    w_log w1 =
      w_log w ++
      (if parentExists (Parent config) w then []
       else if decide (Parent config = getDummyName (TruncateID (cn_NetworkID req)))
            then [EvCreateDummy (Parent config)]
            else [EvCreateVlan (Parent config)]) ++
      [EvStorePut (KVNetwork config)].
Proof.
  rewrite CreateNetwork_parts.
  destruct (requestedConfig req) as [config| |] eqn:Hreq; [|done..].
  destruct (requestedConfig_valid _ _ Hreq) as [Hc Hmode].
  apply requestedConfig_ID in Hreq as Hid. unfold registerAndStore.
  destruct (createNetwork config w) as [[r config'] w'] eqn:Hrun.
  destruct r as [[]| |]; [done| |done..].
  pose proof (createNetwork_new_exact _ _ _ _ Hrun) as [Hconfig Hlog].
  apply createNetwork_new in Hrun as (Hfree & Hid' & Hpar & Hnets & _).
  unfold storeUpdate, storeCall.
  destruct (storePut _ _) as [[e|] s']; simpl; [done|].
  intros [= <-]. exists config'. simpl. rewrite Hpar, Hid', <- Hid, Hnets, Hlog.
  split; [done|]. split; [done|].
  split; [|split; [|split; [|by rewrite <- app_assoc]]].
  - rewrite Hconfig. by destruct (parentExists (Parent config) w).
  - rewrite Hconfig. destruct (parentExists (Parent config) w); simpl; [exact Hc|done].
  - intros k n Hk Hp. by eapply Hfree.
Qed.

(** ** The loop over the networks and the order of the table *)

Lemma scanNetworks_true config l :
  scanNetworks config l = Ok true →
  ∃ nw, nw ∈ l ∧ Parent config = Parent (nw_config nw) ∧
        ID config = ID (nw_config nw).
Proof.
  induction l as [|nw l IH]; simpl; [done|].
  case_decide as Hp.
  - case_decide as Hid; [done|]. intros _. exists nw.
    split; [left|]. split; [done|]. by destruct (decide (ID config = ID (nw_config nw))).
  - intros (nw' & Hin & Hrest)%IH. exists nw'. split; [by right|done].
Qed.

Lemma scanNetworks_fail config l err :
  scanNetworks config l = Fail err →
  ∃ nw, nw ∈ l ∧ Parent config = Parent (nw_config nw) ∧
        ID config ≠ ID (nw_config nw) ∧
        err = E_parent_in_use (getDummyName (TruncateID (ID (nw_config nw))))
                (Parent config).
Proof.
  induction l as [|nw l IH]; simpl; [done|].
  case_decide as Hp.
  - case_decide as Hid; [|done]. intros [= <-]. exists nw. split; [left|done].
  - intros (nw' & Hin & Hrest)%IH. exists nw'. split; [by right|done].
Qed.

(** X12.  When no two networks of different ids are on one parent, the
    outcome of the loop of [createNetwork] does not depend on the order
    in which the networks are visited. *)
Theorem scanNetworks_order config l1 l2 :
  l1 ≡ₚ l2 →
  (∀ n1 n2, n1 ∈ l1 → n2 ∈ l1 →
            Parent (nw_config n1) = Parent (nw_config n2) →
            ID (nw_config n1) = ID (nw_config n2)) →
  scanNetworks config l1 = scanNetworks config l2.
Proof.
  intros Hperm Huniq.
  destruct (scanNetworks config l1) as [[]|err|msg] eqn:Hscan.
  - apply scanNetworks_true in Hscan as (nw & Hin & Hp & Hid).
    symmetry. apply scanNetworks_found.
    + exists nw. by rewrite <- Hperm.
    + intros nw' Hin' Hp'. rewrite <- Hperm in Hin'.
      rewrite Hid. apply Huniq; [done..|congruence].
  - symmetry. apply scanNetworks_none. intros nw Hin. rewrite <- Hperm in Hin.
    by eapply scanNetworks_none.
  - apply scanNetworks_fail in Hscan as (nw & Hin & Hp & Hid & ->).
    symmetry. apply scanNetworks_conflict; try done.
    + by rewrite <- Hperm.
    + intros nw' Hin' Hp'. rewrite <- Hperm in Hin'.
      apply Huniq; [done..|congruence].
  - by destruct (scanNetworks_no_panic config l1 msg).
Qed.

(** ** Link creation in [CreateNetwork] *)

Lemma createNetwork_dummy_call config w :
  (∀ nw, nw ∈ getNetworks w → Parent config = Parent (nw_config nw) →
         ID config = ID (nw_config nw)) →
  parentExists (Parent config) w = false →
  Parent config = getDummyName (TruncateID (ID config)) →
  ∃ found,
    scanNetworks config (getNetworks w) = Ok found ∧
    createNetwork config w =
      match createDummy (Parent config) (w_host w) with
      | (Some err, h') =>
          (Fail (E_collaborator err), config,
           mkWorld (w_networks w) h' (w_store w) (w_rng w)
             (w_log w ++ [EvCreateDummy (Parent config)]))
      | (None, h') =>
          let w' := mkWorld (w_networks w) h' (w_store w) (w_rng w)
                      (w_log w ++ [EvCreateDummy (Parent config)]) in
          let config' := withCreatedSlaveLink true config in
          if found then (Ok true, config', w')
          else (Ok false, config',
                addNetwork (mkNetwork (ID config) ∅ config') w')
      end.
Proof.
  intros Hsame Hex Hd. unfold createNetwork.
  destruct (scanNetworks config (getNetworks w)) as [found|err|msg] eqn:Hscan.
  - exists found. split; [done|]. rewrite Hex. simpl.
    rewrite decide_True by done.
    unfold createDummyLink, hostCall.
    destruct (createDummy _ _) as [[e|] h']; simpl; [done|].
    by destruct found.
  - apply scanNetworks_fail in Hscan as (nw & Hin & Hp & Hid & _).
    by destruct Hid; apply Hsame.
  - by destruct (scanNetworks_no_panic _ _ _ Hscan).
Qed.

(** X13.  A replay finds the network but not its dummy link on the host:
    the link is created once more, the answer is still the maskable
    "restoring existing network", and the table, with the configuration
    registered for the network, is not touched. *)
Theorem CreateNetwork_replay_recreates_link req w config k n h' :
  requestedConfig req = Ok config →
  w_networks w !! k = Some n →
  Parent (nw_config n) = Parent config →
  (∀ k' n', w_networks w !! k' = Some n' →
            Parent (nw_config n') = Parent config →
            ID (nw_config n') = cn_NetworkID req) →
  parentExists (Parent config) w = false →
  Parent config = getDummyName (TruncateID (cn_NetworkID req)) →
  createDummy (Parent config) (w_host w) = (None, h') →
  CreateNetwork req w =
    (Fail (E_restoring_existing (cn_NetworkID req)),
     mkWorld (w_networks w) h' (w_store w) (w_rng w)
       (w_log w ++ [EvCreateDummy (Parent config)])).
Proof.
  intros Hreq Hk Hp Hsame Hex Hd Hc.
  rewrite CreateNetwork_parts, Hreq. apply requestedConfig_ID in Hreq as Hid.
  unfold registerAndStore.
  destruct (createNetwork_dummy_call config w) as (found & Hscan & ->);
    [|done|by rewrite Hid|].
  { intros nw [k' Hk']%elem_of_getNetworks Hp'. rewrite Hid. symmetry.
    by eapply Hsame. }
  rewrite Hc.
  assert (found = true) as ->.
  { destruct found; [done|]. exfalso.
    eapply scanNetworks_none; [done| |by symmetry; apply Hp].
    apply elem_of_getNetworks. eauto. }
  simpl. by rewrite Hid.
Qed.

(** X14.  The link layer refuses the dummy link of a network: the error
    is passed on as it is, the network is not registered and nothing is
    written to the store. *)
Theorem CreateNetwork_link_failure req w config err h' :
  requestedConfig req = Ok config →
  (∀ k' n', w_networks w !! k' = Some n' →
            Parent (nw_config n') = Parent config →
            ID (nw_config n') = cn_NetworkID req) →
  parentExists (Parent config) w = false →
  Parent config = getDummyName (TruncateID (cn_NetworkID req)) →
  createDummy (Parent config) (w_host w) = (Some err, h') →
  CreateNetwork req w =
    (Fail (E_collaborator err),
     mkWorld (w_networks w) h' (w_store w) (w_rng w)
       (w_log w ++ [EvCreateDummy (Parent config)])).
Proof.
  intros Hreq Hsame Hex Hd Hc.
  rewrite CreateNetwork_parts, Hreq. apply requestedConfig_ID in Hreq as Hid.
  unfold registerAndStore.
  destruct (createNetwork_dummy_call config w) as (found & Hscan & ->);
    [|done|by rewrite Hid|].
  { intros nw [k' Hk']%elem_of_getNetworks Hp'. rewrite Hid. symmetry.
    by eapply Hsame. }
  by rewrite Hc.
Qed.

(** ** Deleting a network twice, and after its creation *)

(** X15.  After [DeleteNetwork], a second [DeleteNetwork] of the same id
    fails with "network id ... not found" and does nothing. *)
Theorem DeleteNetwork_twice req w :
  DeleteNetwork req (DeleteNetwork req w).2 =
    (Fail (E_network_not_found (dn_NetworkID req)), (DeleteNetwork req w).2).
Proof.
  destruct req as [nid]. simpl.
  assert (w_networks (DeleteNetwork (mkDeleteNetworkRequest nid) w).2 !! nid = None)
    as Hgone.
  { destruct (w_networks w !! nid) as [n|] eqn:Hn.
    - rewrite (DeleteNetwork_networks nid w n Hn). apply lookup_delete_eq.
    - unfold DeleteNetwork, driver_network. simpl. by rewrite Hn. }
  unfold DeleteNetwork at 1. unfold driver_network. simpl. by rewrite Hgone.
Qed.

Lemma rangeOrder_empty {A} : rangeOrder A ∅ = [].
Proof.
  apply Permutation_nil_r. rewrite rangeOrder_perm. by rewrite map_to_list_empty.
Qed.

(** X16.  A network is created without a parent, on a host without its
    dummy link, and deleted again: the table is the one from before, and
    the calls made are the creation of the dummy link, the write of the
    configuration, the deletion of the dummy link and the removal of the
    configuration, in this order. *)
Theorem CreateNetwork_DeleteNetwork `{!LinkLaws} req w w1 config :
  w_networks w !! cn_NetworkID req = None →
  requestedConfig req = Ok config →
  Parent config = getDummyName (TruncateID (cn_NetworkID req)) →
  parentExists (Parent config) w = false →
  CreateNetwork req w = (Ok tt, w1) →
  let w2 := (DeleteNetwork (mkDeleteNetworkRequest (cn_NetworkID req)) w1).2 in
  let stored := withCreatedSlaveLink true config in
  w_networks w2 = w_networks w ∧
  w_log w2 =
    w_log w ++ [EvCreateDummy (Parent config); EvStorePut (KVNetwork stored);
                EvDeleteLink (Parent config); EvStoreDelete (KVNetwork stored)].
Proof.
  intros Hfresh Hreq Hd Hex. rewrite CreateNetwork_parts, Hreq.
  apply requestedConfig_ID in Hreq as Hid. unfold registerAndStore.
  destruct (createNetwork config w) as [[r config'] w'] eqn:Hrun.
  destruct r as [[]| |]; [done| |done..].
  pose proof (createNetwork_new_exact _ _ _ _ Hrun) as [Hconfig Hlog].
  apply createNetwork_new in Hrun as (_ & _ & _ & Hnets & _ & _ & Hlink).
  rewrite Hex in Hconfig, Hlog. rewrite decide_True in Hlog by by rewrite Hid.
  subst config'.
  assert (linkExists (Parent config) (w_host w') = true) as Hex'.
  { destruct Hlink as [(Hex1 & _)|(_ & _ & [[Hc _]|[Hc _]])]; [congruence|..].
    - by eapply createDummy_exists.
    - by eapply createVlanSubinterface_exists. }
  unfold storeUpdate, storeCall.
  destruct (storePut _ _) as [[e|] s']; simpl; [done|].
  intros [= <-].
  unfold DeleteNetwork, driver_network. simpl.
  rewrite Hnets, Hid, lookup_insert_eq.
  unfold releaseParent, parentExists, delDummyLink, hostCall. simpl.
  rewrite Hex', decide_True by done. simpl.
  rewrite rangeOrder_empty. simpl.
  unfold storeDelete, storeCall, deleteNetwork.
  destruct (storeRemove _ _) as [[e|] s'']; simpl;
    rewrite delete_insert_eq, Hlog, <- !app_assoc;
    (split; [by apply delete_id|done]).
Qed.

(** ** Requests on unknown ids *)

(** X17.  A request on a network id that is not in the table is refused by
    [CreateEndpoint], [DeleteEndpoint], [Join] and [DeleteNetwork] alike,
    and nothing is done. *)
Theorem unknown_network_refused w nid :
  w_networks w !! nid = None →
  (∀ req, ce_NetworkID req = nid → ∃ err, CreateEndpoint req w = (Fail err, w)) ∧
  (∀ req, de_NetworkID req = nid → ∃ err, DeleteEndpoint req w = (Fail err, w)) ∧
  (∀ req, j_NetworkID req = nid → ∃ err, Join req w = (Fail err, w)) ∧
  DeleteNetwork (mkDeleteNetworkRequest nid) w = (Fail (E_network_not_found nid), w).
Proof.
  intros Hn. repeat split.
  - intros req <-. unfold CreateEndpoint, getNetwork. rewrite Hn.
    destruct (validateID _ _); eauto.
  - intros req <-. unfold DeleteEndpoint, driver_network. rewrite Hn.
    destruct (validateID _ _); eauto.
  - intros req <-. unfold Join, getNetwork. rewrite Hn. eauto.
  - unfold DeleteNetwork, driver_network. simpl. by rewrite Hn.
Qed.

(** X18.  On a network that is in the table, a request on an endpoint id
    that the network does not have is refused by [DeleteEndpoint] and by
    [Join], the latter with "could not find endpoint with id ...", and
    nothing is done. *)
Theorem unknown_endpoint_refused w nid n eid :
  w_networks w !! nid = Some n →
  nw_endpoints n !! eid = None →
  (∃ err, DeleteEndpoint (mkDeleteEndpointRequest nid eid) w = (Fail err, w)) ∧
  ∀ key opts,
    Join (mkJoinRequest nid eid key opts) w = (Fail (E_could_not_find_endpoint eid), w).
Proof.
  intros Hn Hep. split.
  - unfold DeleteEndpoint, driver_network, network_endpoint. simpl.
    rewrite Hn, Hep. destruct (validateID _ _); eauto.
  - intros key opts. unfold Join, getNetwork, network_endpoint. simpl.
    by rewrite Hn, Hep.
Qed.

(** ** Endpoints *)

Lemma alter_as_insert {A} (f : A → A) (m : gmap string A) k x :
  m !! k = Some x → alter f k m = <[k := f x]> m.
Proof.
  intros Hk. apply map_eq. intros j. destruct (decide (k = j)) as [->|Hne].
  - by rewrite lookup_alter_eq, lookup_insert_eq, Hk.
  - by rewrite lookup_alter_ne, lookup_insert_ne.
Qed.

(** X19.  A [CreateEndpoint] request without an [Interface] panics on a
    network that exists, after the ids and the network have been checked
    and before anything is done. *)
Theorem CreateEndpoint_nil_interface_panics req w n :
  validateID (ce_NetworkID req) (ce_EndpointID req) = None →
  w_networks w !! ce_NetworkID req = Some n →
  ce_Interface req = None →
  CreateEndpoint req w =
    (Panic "invalid memory address or nil pointer dereference", w).
Proof.
  intros Hvalid Hn Hifc. unfold CreateEndpoint, getNetwork.
  by rewrite Hvalid, Hn, Hifc.
Qed.

(** X20.  What a successful [CreateEndpoint] leaves behind: the one call
    made is the write of the endpoint to the store; the network of the
    request has gained the endpoint under its id, in place of an endpoint
    of that id if there was one, with an empty source name; nothing else
    of the table, the host or the source of randomness has changed. *)
Theorem CreateEndpoint_registers req w resp w1 :
  CreateEndpoint req w = (Ok resp, w1) →
  ∃ n ifc s',
    w_networks w !! ce_NetworkID req = Some n ∧
    ce_Interface req = Some ifc ∧
    let ep := mkEndpoint (ce_EndpointID req) (ce_NetworkID req)
                (Some (list_byte_of_string (MacAddress ifc))) "" 0 false in
    storePut (KVEndpoint ep) (w_store w) = (None, s') ∧
    w1 = mkWorld
           (<[ce_NetworkID req :=
                withEndpoints (<[ce_EndpointID req := ep]> (nw_endpoints n)) n]>
              (w_networks w))
           (w_host w) s' (w_rng w) (w_log w ++ [EvStorePut (KVEndpoint ep)]).
Proof.
  unfold CreateEndpoint, getNetwork, HardwareAddr_of_string, storeUpdate,
    storeCall, addEndpoint.
  destruct (validateID _ _); [done|].
  destruct (w_networks w !! ce_NetworkID req) as [n|] eqn:Hn; [|done].
  destruct (ce_Interface req) as [ifc|]; [|done]. simpl.
  destruct (storePut _ _) as [[e|] s'] eqn:Hput; simpl; [done|].
  intros [= <- <-]. exists n, ifc, s'. repeat split; try done.
  unfold setNetworks. simpl. by rewrite (alter_as_insert _ _ _ _ Hn).
Qed.

(** What [DeleteEndpoint] does to an endpoint it finds. *)
Lemma DeleteEndpoint_found nid eid w n ep :
  validateID nid eid = None →
  w_networks w !! nid = Some n →
  nw_endpoints n !! eid = Some ep →
  DeleteEndpoint (mkDeleteEndpointRequest nid eid) w =
    (Ok tt,
     let w' := dropEndpoint ep w in
     mkWorld
       (<[nid := withEndpoints (delete (ep_id ep) (nw_endpoints n)) n]> (w_networks w))
       (w_host w') (w_store w') (w_rng w') (w_log w')).
Proof.
  intros Hvalid Hn Hep.
  unfold DeleteEndpoint, driver_network, network_endpoint. simpl.
  rewrite Hvalid, Hn, Hep. f_equal.
  unfold deleteEndpoint, setNetworks.
  destruct (dropEndpoint_spec ep w) as [Hnets _]. rewrite Hnets.
  by rewrite (alter_as_insert _ _ _ _ Hn).
Qed.

(** X21.  An endpoint is created under an id the network did not have, and
    deleted again: both calls succeed and the table is the one from before
    the creation. *)
Theorem CreateEndpoint_DeleteEndpoint req w resp w1 n :
  w_networks w !! ce_NetworkID req = Some n →
  nw_endpoints n !! ce_EndpointID req = None →
  CreateEndpoint req w = (Ok resp, w1) →
  let r := DeleteEndpoint
             (mkDeleteEndpointRequest (ce_NetworkID req) (ce_EndpointID req)) w1 in
  r.1 = Ok tt ∧ w_networks r.2 = w_networks w.
Proof.
  intros Hn Hfresh Hrun.
  assert (validateID (ce_NetworkID req) (ce_EndpointID req) = None) as Hvalid.
  { unfold CreateEndpoint in Hrun. by destruct (validateID _ _). }
  revert Hrun.
  unfold CreateEndpoint, getNetwork, HardwareAddr_of_string, storeUpdate,
    storeCall, addEndpoint. rewrite Hvalid, Hn.
  destruct (ce_Interface req) as [ifc|]; [|done]. simpl.
  destruct (storePut _ _) as [[e|] s']; simpl; [done|].
  intros [= <- <-]. simpl.
  erewrite DeleteEndpoint_found; [|done| |].
  2: { simpl. rewrite lookup_alter_eq, Hn. done. }
  2: { simpl. apply lookup_insert_eq. }
  simpl. split; [done|].
  rewrite insert_alter_eq, delete_insert_eq, delete_id by done.
  apply insert_id. rewrite Hn. by destruct n.
Qed.

(** X22.  What [DeleteEndpoint] does to an endpoint of a network: it
    succeeds; if netlink finds a link under the source name of the
    endpoint, that link is deleted; the record of the endpoint is removed
    from the store; and the endpoint is taken out of its network under its
    own id, the other endpoints and networks staying as they are.  The
    answers of the link layer and of the store do not matter. *)
Theorem DeleteEndpoint_removes nid eid w n ep :
  validateID nid eid = None →
  w_networks w !! nid = Some n →
  nw_endpoints n !! eid = Some ep →
  let r := DeleteEndpoint (mkDeleteEndpointRequest nid eid) w in
  r.1 = Ok tt ∧
  w_networks r.2 =
    <[nid := withEndpoints (delete (ep_id ep) (nw_endpoints n)) n]> (w_networks w) ∧
  w_log r.2 =
    w_log w ++
    match LinkByName (ep_srcName ep) (w_host w) with
    | Some link => [EvLinkDel link]
    | None => []
    end ++ [EvStoreDelete (KVEndpoint ep)].
Proof.
  intros Hvalid Hn Hep. simpl. rewrite (DeleteEndpoint_found _ _ _ _ _ Hvalid Hn Hep).
  simpl. split; [done|]. split; [done|].
  unfold dropEndpoint, storeDelete, storeCall, nlLinkDel, hostCall.
  destruct (LinkByName _ _); simpl; by rewrite <- ?app_assoc.
Qed.

(** ** Joining *)

(** [Join] on an endpoint it finds, as far as the creation of the
    interface. *)
Lemma Join_found req w n ep :
  w_networks w !! j_NetworkID req = Some n →
  nw_endpoints n !! j_EndpointID req = Some ep →
  Join req w =
    match GenerateIfaceName vethPrefix vethLen (w_host w) (w_rng w) with
    | (inl err, rg) =>
        (Fail (E_generating_iface_name err),
         mkWorld (w_networks w) (w_host w) (w_store w) rg (w_log w))
    | (inr name, rg) =>
        let created := EvCreateMacvlan name (Parent (nw_config n))
                         (MacvlanMode (nw_config n)) in
        match createMacvlanSlave name (Parent (nw_config n))
                (MacvlanMode (nw_config n)) (w_host w) with
        | (inl err, h2) =>
            (Fail (E_collaborator err),
             mkWorld (w_networks w) h2 (w_store w) rg (w_log w ++ [created]))
        | (inr vethName, h2) =>
            let ep' := withSrcName vethName ep in
            let nets :=
              <[j_NetworkID req :=
                  withEndpoints (<[j_EndpointID req := ep']> (nw_endpoints n)) n]>
                (w_networks w) in
            let log := w_log w ++ [created; EvStorePut (KVEndpoint ep')] in
            match storePut (KVEndpoint ep') (w_store w) with
            | (Some err, s') =>
                (Fail (E_save_endpoint (ep_id ep) err), mkWorld nets h2 s' rg log)
            | (None, s') =>
                (Ok (mkJoinResponse vethName containerVethPrefix true),
                 mkWorld nets h2 s' rg log)
            end
        end
    end.
Proof.
  intros Hn Hep.
  unfold Join, getNetwork, generateIfaceName, createMacVlan, hostCall,
    storeUpdate, storeCall, driver_network, network_endpoint, setSrcName.
  rewrite Hn, Hep.
  destruct (GenerateIfaceName _ _ _ _) as [[err|name] rg]; simpl; [done|].
  destruct (createMacvlanSlave _ _ _ _) as [[err|vethName] h2]; simpl; [done|].
  rewrite lookup_alter_eq, Hn. simpl. rewrite lookup_alter_eq, Hep. simpl.
  rewrite (alter_as_insert _ _ _ _ Hn). simpl.
  rewrite (alter_as_insert _ _ _ _ Hep).
  destruct (storePut _ _) as [[e|] s']; simpl; by rewrite <- app_assoc.
Qed.

(** X23.  What a successful [Join] leaves behind: the answer has the
    destination prefix "eth" and the gateway service disabled; the
    endpoint has the returned source name and is otherwise as it was; the
    other endpoints and networks are as they were; and the calls made are
    the creation of one macvlan interface on the parent of the network, in
    its mode, followed by the write of the endpoint with its new source
    name to the store. *)
Theorem Join_binds req w resp w1 :
  Join req w = (Ok resp, w1) →
  ∃ n ep name,
    w_networks w !! j_NetworkID req = Some n ∧
    nw_endpoints n !! j_EndpointID req = Some ep ∧
    DstPrefix resp = "eth" ∧ DisableGatewayService resp = true ∧
    w_networks w1 =
      <[j_NetworkID req :=
          withEndpoints
            (<[j_EndpointID req := withSrcName (SrcName resp) ep]> (nw_endpoints n))
            n]> (w_networks w) ∧
    w_log w1 =
      w_log w ++
      [EvCreateMacvlan name (Parent (nw_config n)) (MacvlanMode (nw_config n));
       EvStorePut (KVEndpoint (withSrcName (SrcName resp) ep))].
Proof.
  intros Hrun.
  destruct (w_networks w !! j_NetworkID req) as [n|] eqn:Hn.
  2: { unfold Join, getNetwork in Hrun. by rewrite Hn in Hrun. }
  destruct (nw_endpoints n !! j_EndpointID req) as [ep|] eqn:Hep.
  2: { unfold Join, getNetwork, network_endpoint in Hrun. by rewrite Hn, Hep in Hrun. }
  rewrite (Join_found req w n ep Hn Hep) in Hrun.
  destruct (GenerateIfaceName _ _ _ _) as [[err|name] rg]; [done|].
  destruct (createMacvlanSlave _ _ _ _) as [[err|vethName] h2]; [done|].
  simpl in Hrun.
  destruct (storePut _ _) as [[e|] s']; [done|].
  injection Hrun as <- <-. exists n, ep, name. done.
Qed.

(** X24.  [Join] does not undo what it has done when the store refuses the
    endpoint: the call fails with "failed to save macvlan endpoint ...",
    but the macvlan interface stays on the host and the endpoint keeps
    the new source name. *)
Theorem Join_store_failure_keeps_interface req w n ep name rg vethName h2 err s' :
  w_networks w !! j_NetworkID req = Some n →
  nw_endpoints n !! j_EndpointID req = Some ep →
  GenerateIfaceName vethPrefix vethLen (w_host w) (w_rng w) = (inr name, rg) →
  createMacvlanSlave name (Parent (nw_config n)) (MacvlanMode (nw_config n))
    (w_host w) = (inr vethName, h2) →
  storePut (KVEndpoint (withSrcName vethName ep)) (w_store w) = (Some err, s') →
  let r := Join req w in
  r.1 = Fail (E_save_endpoint (ep_id ep) err) ∧
  w_host r.2 = h2 ∧
  (∃ n', w_networks r.2 !! j_NetworkID req = Some n' ∧
         nw_endpoints n' !! j_EndpointID req = Some (withSrcName vethName ep)) ∧
  w_log r.2 =
    w_log w ++
    [EvCreateMacvlan name (Parent (nw_config n)) (MacvlanMode (nw_config n));
     EvStorePut (KVEndpoint (withSrcName vethName ep))].
Proof.
  intros Hn Hep Hgen Hmac Hput. simpl.
  rewrite (Join_found req w n ep Hn Hep), Hgen, Hmac. simpl. rewrite Hput. simpl.
  repeat split; try done.
  eexists. rewrite lookup_insert_eq. split; [done|]. simpl.
  apply lookup_insert_eq.
Qed.

(** X25.  A [Join] that fails for want of an interface name, or because
    the link layer refuses the macvlan interface, leaves the table as it
    was: the endpoint keeps its source name, and nothing is written to
    the store. *)
Theorem Join_failure_before_binding req w n ep :
  w_networks w !! j_NetworkID req = Some n →
  nw_endpoints n !! j_EndpointID req = Some ep →
  (∀ name rg, GenerateIfaceName vethPrefix vethLen (w_host w) (w_rng w) = (inr name, rg) →
     ∃ err h2, createMacvlanSlave name (Parent (nw_config n))
                 (MacvlanMode (nw_config n)) (w_host w) = (inl err, h2)) →
  let r := Join req w in
  (∃ err, r.1 = Fail err) ∧
  w_networks r.2 = w_networks w ∧ w_store r.2 = w_store w ∧
  ∀ o, EvStorePut o ∈ w_log r.2 → EvStorePut o ∈ w_log w.
Proof.
  intros Hn Hep Hfail. simpl. rewrite (Join_found req w n ep Hn Hep).
  destruct (GenerateIfaceName _ _ _ _) as [[err|name] rg]; simpl.
  { eauto 10. }
  destruct (Hfail name rg eq_refl) as (err & h2 & ->). simpl.
  split; [eauto|]. split; [done|]. split; [done|].
  intros o [Hin|Hin]%elem_of_app; [done|].
  by apply list_elem_of_singleton in Hin.
Qed.

(** X26.  An endpoint is joined and then deleted: the deletion succeeds
    and looks for the link under the source name that [Join] returned; if
    netlink finds it, it is deleted; the record removed from the store is
    the endpoint with that source name. *)
Theorem Join_DeleteEndpoint req w resp w1 :
  validateID (j_NetworkID req) (j_EndpointID req) = None →
  Join req w = (Ok resp, w1) →
  let r := DeleteEndpoint
             (mkDeleteEndpointRequest (j_NetworkID req) (j_EndpointID req)) w1 in
  ∃ ep,
    r.1 = Ok tt ∧ ep_srcName ep = SrcName resp ∧
    w_log r.2 =
      w_log w1 ++
      match LinkByName (SrcName resp) (w_host w1) with
      | Some link => [EvLinkDel link]
      | None => []
      end ++ [EvStoreDelete (KVEndpoint ep)] ∧
    ∃ n', w_networks r.2 !! j_NetworkID req = Some n' ∧
          nw_endpoints n' !! ep_id ep = None.
Proof.
  intros Hvalid Hrun.
  destruct (w_networks w !! j_NetworkID req) as [n|] eqn:Hn.
  2: { unfold Join, getNetwork in Hrun. by rewrite Hn in Hrun. }
  destruct (nw_endpoints n !! j_EndpointID req) as [ep|] eqn:Hep.
  2: { unfold Join, getNetwork, network_endpoint in Hrun. by rewrite Hn, Hep in Hrun. }
  rewrite (Join_found req w n ep Hn Hep) in Hrun.
  destruct (GenerateIfaceName _ _ _ _) as [[err|name] rg]; [done|].
  destruct (createMacvlanSlave _ _ _ _) as [[err|vethName] h2]; [done|].
  simpl in Hrun.
  destruct (storePut _ _) as [[e|] s']; [done|].
  injection Hrun as <- <-. simpl.
  exists (withSrcName vethName ep).
  erewrite DeleteEndpoint_found; [|done|simpl; apply lookup_insert_eq|simpl; apply lookup_insert_eq].
  simpl. split; [done|]. split; [done|]. split.
  - unfold dropEndpoint, storeDelete, storeCall, nlLinkDel, hostCall. simpl.
    destruct (LinkByName _ _); simpl; by rewrite <- ?app_assoc.
  - eexists. rewrite lookup_insert_eq. split; [done|]. simpl.
    apply lookup_delete_eq.
Qed.

(** ** Invariants of the endpoints and of the modes *)

(** How a handler may change the table: not at all, by the removal of an
    entry, by a new network without endpoints, or by a change of the
    endpoints of one network. *)
Lemma createNetwork_table config w :
  w_networks (createNetwork config w).2 = w_networks w ∨
  ∃ config',
    MacvlanMode config' = MacvlanMode config ∧
    w_networks (createNetwork config w).2 =
      <[ID config := mkNetwork (ID config) ∅ config']> (w_networks w).
Proof.
  destruct (createNetwork config w) as [[r config'] w'] eqn:Hrun. simpl.
  assert (r = Ok false ∨ r ≠ Ok false) as [->|Hr]
    by (destruct r as [[]| |]; auto).
  - right. exists config'.
    destruct (createNetwork_new_exact _ _ _ _ Hrun) as [-> _].
    apply createNetwork_new in Hrun as (_ & _ & _ & -> & _).
    split; [|done]. by destruct (parentExists _ _).
  - left. by eapply createNetwork_other.
Qed.

Lemma CreateNetwork_table req w :
  w_networks (CreateNetwork req w).2 = w_networks w ∨
  w_networks (CreateNetwork req w).2 = delete (cn_NetworkID req) (w_networks w) ∨
  ∃ config,
    MacvlanMode config ∈ validModes ∧
    w_networks (CreateNetwork req w).2 =
      <[cn_NetworkID req := mkNetwork (cn_NetworkID req) ∅ config]> (w_networks w).
Proof.
  rewrite CreateNetwork_parts.
  destruct (requestedConfig req) as [config| |] eqn:Hreq; [|by left..].
  destruct (requestedConfig_valid _ _ Hreq) as [_ Hmode].
  apply requestedConfig_ID in Hreq as Hid. unfold registerAndStore.
  destruct (createNetwork config w) as [[r config'] w'] eqn:Hrun.
  assert (r = Ok false ∨ r ≠ Ok false) as [->|Hr]
    by (destruct r as [[]| |]; auto).
  - destruct (createNetwork_new_exact _ _ _ _ Hrun) as [Hconfig _].
    apply createNetwork_new in Hrun as (_ & Hid' & _ & Hnets & _).
    unfold storeUpdate, storeCall.
    destruct (storePut _ _) as [[e|] s']; simpl.
    + right. left. by rewrite Hnets, Hid', Hid, delete_insert_eq.
    + right. right. exists config'. rewrite Hnets, Hid. split; [|done].
      rewrite Hconfig. by destruct (parentExists _ _).
  - left. pose proof (createNetwork_other _ _ _ _ _ Hrun Hr) as Hsame.
    by destruct r as [[]| |].
Qed.

(** The two invariants under each way of changing the table. *)
Lemma endpointsKeyed_delete nid (t : gmap string network) :
  endpointsKeyed t → endpointsKeyed (delete nid t).
Proof. intros Hinv k n eid ep [_ Hk]%lookup_delete_Some. by apply Hinv. Qed.

Lemma endpointsKeyed_insert_empty nid nw_id' config (t : gmap string network) :
  endpointsKeyed t → endpointsKeyed (<[nid := mkNetwork nw_id' ∅ config]> t).
Proof.
  intros Hinv k n eid ep [[<- <-]|[_ Hk]]%lookup_insert_Some; [done|].
  by apply Hinv.
Qed.

Lemma endpointsKeyed_alter (f : network → network) nid (t : gmap string network) :
  (∀ n eid ep, t !! nid = Some n → nw_endpoints (f n) !! eid = Some ep →
     nw_endpoints n !! eid = Some ep ∨
     (ep_id ep = eid ∧ ep_nid ep = nid ∧ ep_mac ep ≠ None)) →
  endpointsKeyed t → endpointsKeyed (alter f nid t).
Proof.
  intros Hf Hinv k n eid ep Hk Hep.
  destruct (decide (nid = k)) as [<-|Hne].
  - rewrite lookup_alter_eq in Hk.
    destruct (t !! nid) as [n0|] eqn:Hn0; simplify_eq/=.
    destruct (Hf n0 eid ep eq_refl Hep) as [Hold|Hnew]; [|done].
    by eapply Hinv.
  - rewrite lookup_alter_ne in Hk by done. by eapply Hinv.
Qed.

Lemma modesValid_delete nid (t : gmap string network) :
  modesValid t → modesValid (delete nid t).
Proof. intros Hinv k n [_ Hk]%lookup_delete_Some. by apply (Hinv k). Qed.

Lemma modesValid_alter (f : network → network) nid (t : gmap string network) :
  (∀ n, nw_config (f n) = nw_config n) →
  modesValid t → modesValid (alter f nid t).
Proof.
  intros Hf Hinv k n Hk. destruct (decide (nid = k)) as [<-|Hne].
  - rewrite lookup_alter_eq in Hk.
    destruct (t !! nid) as [n0|] eqn:Hn0; simplify_eq/=.
    rewrite Hf. by apply (Hinv nid).
  - rewrite lookup_alter_ne in Hk by done. by apply (Hinv k).
Qed.

Lemma endpoint_handlers_table w :
  (∀ req, w_networks (DeleteNetwork req w).2 = w_networks w ∨
          w_networks (DeleteNetwork req w).2 = delete (dn_NetworkID req) (w_networks w)) ∧
  (∀ req, w_networks (CreateEndpoint req w).2 = w_networks w ∨
          ∃ ep, ep_id ep = ce_EndpointID req ∧ ep_nid ep = ce_NetworkID req ∧
                ep_mac ep ≠ None ∧
                w_networks (CreateEndpoint req w).2 =
                  alter (λ n, withEndpoints (<[ep_id ep := ep]> (nw_endpoints n)) n)
                    (ce_NetworkID req) (w_networks w)) ∧
  (∀ req, w_networks (DeleteEndpoint req w).2 = w_networks w ∨
          ∃ eid, w_networks (DeleteEndpoint req w).2 =
                   alter (λ n, withEndpoints (delete eid (nw_endpoints n)) n)
                     (de_NetworkID req) (w_networks w)) ∧
  (∀ req, w_networks (Join req w).2 = w_networks w ∨
          ∃ name, w_networks (Join req w).2 =
                    alter (λ n, withEndpoints
                             (alter (withSrcName name) (j_EndpointID req) (nw_endpoints n)) n)
                      (j_NetworkID req) (w_networks w)).
Proof.
  split; [|split; [|split]]; intros req.
  - destruct req as [nid]. destruct (w_networks w !! nid) as [n|] eqn:Hn.
    + right. by apply (DeleteNetwork_networks nid w n).
    + left. unfold DeleteNetwork, driver_network. simpl. by rewrite Hn.
  - unfold CreateEndpoint, getNetwork, HardwareAddr_of_string, storeUpdate,
      storeCall, addEndpoint.
    destruct (validateID _ _); [by left|].
    destruct (w_networks w !! ce_NetworkID req) as [n|]; [|by left].
    destruct (ce_Interface req) as [ifc|]; [|by left]. simpl.
    destruct (storePut _ _) as [[e|] s']; simpl; [by left|].
    right.
    by exists (mkEndpoint (ce_EndpointID req) (ce_NetworkID req)
                 (Some (list_byte_of_string (MacAddress ifc))) "" 0 false).
  - unfold DeleteEndpoint, driver_network, deleteEndpoint.
    destruct (validateID _ _); [by left|].
    destruct (w_networks w !! de_NetworkID req) as [n|]; [|by left].
    destruct (network_endpoint _ n) as [ep|]; [|by left].
    right. exists (ep_id ep). cbn [snd setNetworks w_networks].
    by destruct (dropEndpoint_spec ep w) as [-> _].
  - unfold Join, getNetwork, generateIfaceName, createMacVlan, hostCall,
      storeUpdate, storeCall, setSrcName.
    repeat case_match; simplify_eq/=; first [by left | right; by eexists].
Qed.

Lemma step_endpointsKeyed w w' :
  step w w' → endpointsKeyed (w_networks w) → endpointsKeyed (w_networks w').
Proof.
  destruct (endpoint_handlers_table w) as (Hdn & Hce & Hde & Hj).
  destruct 1 as [req w|req w|req w|req w|req w|config w|w w' Hsame]; intros Hinv.
  - destruct (CreateNetwork_table req w) as [->|[->|(c & _ & ->)]]; [done|..].
    + by apply endpointsKeyed_delete.
    + by apply endpointsKeyed_insert_empty.
  - destruct (Hdn req) as [->| ->]; [done|]. by apply endpointsKeyed_delete.
  - destruct (Hce req) as [->|(ep & Hid & Hnid & Hmac & ->)]; [done|].
    apply endpointsKeyed_alter; [|done]. simpl. intros n eid ep' _ Hep'.
    apply lookup_insert_Some in Hep' as [[<- <-]|[_ Hep']]; auto.
  - destruct (Hde req) as [->|(eid & ->)]; [done|].
    apply endpointsKeyed_alter; [|done]. simpl. intros n eid' ep' _ Hep'.
    apply lookup_delete_Some in Hep' as [_ Hep']. auto.
  - destruct (Hj req) as [->|(name & ->)]; [done|].
    apply endpointsKeyed_alter; [|done]. simpl. intros n eid ep' Hn Hep'.
    destruct (decide (j_EndpointID req = eid)) as [<-|Hne].
    + rewrite lookup_alter_eq in Hep'.
      destruct (nw_endpoints n !! j_EndpointID req) as [ep0|] eqn:Hep0;
        simplify_eq/=.
      right. by destruct (Hinv _ _ _ _ Hn Hep0) as (? & ? & ?).
    + rewrite lookup_alter_ne in Hep' by done. auto.
  - destruct (createNetwork_table config w) as [->|(c & _ & ->)]; [done|].
    by apply endpointsKeyed_insert_empty.
  - by rewrite Hsame.
Qed.

(** X27.  In every state the driver can reach, every endpoint is filed
    under its own id, in the network whose id it carries, and its
    address is not nil. *)
Theorem reachable_endpoints_keyed w k n eid ep :
  reachable w →
  w_networks w !! k = Some n →
  nw_endpoints n !! eid = Some ep →
  ep_id ep = eid ∧ ep_nid ep = k ∧ ep_mac ep ≠ None.
Proof.
  intros Hreach. revert k n eid ep.
  change (endpointsKeyed (w_networks w)).
  induction Hreach as [h s r|w w' _ IH Hstep].
  - intros k n eid ep Hk. simpl in Hk. by rewrite lookup_empty in Hk.
  - by eapply step_endpointsKeyed.
Qed.

(** X28.  In every state of a driver that has served requests only, the
    mode of every network is one of "bridge", "private", "passthru" and
    "vepa". *)
Theorem served_modes_valid w k n :
  served w →
  w_networks w !! k = Some n →
  MacvlanMode (nw_config n) ∈ validModes.
Proof.
  intros Hserved. revert k n. change (modesValid (w_networks w)).
  induction Hserved as [h s r|req w _ IH|req w _ IH|req w _ IH|req w _ IH
                        |req w _ IH|w w' _ IH Hsame];
    try destruct (endpoint_handlers_table w) as (Hdn & Hce & Hde & Hj).
  - intros k n Hk. simpl in Hk. by rewrite lookup_empty in Hk.
  - destruct (CreateNetwork_table req w) as [->|[->|(c & Hm & ->)]]; [done|..].
    + by apply modesValid_delete.
    + intros k n [[<- <-]|[_ Hk]]%lookup_insert_Some; [done|]. by apply (IH k).
  - destruct (Hdn req) as [->| ->]; [done|]. by apply modesValid_delete.
  - destruct (Hce req) as [->|(ep & _ & _ & _ & ->)]; [done|].
    by apply modesValid_alter.
  - destruct (Hde req) as [->|(eid & ->)]; [done|]. by apply modesValid_alter.
  - destruct (Hj req) as [->|(name & ->)]; [done|]. by apply modesValid_alter.
  - by rewrite Hsame.
Qed.

End Lifecycle.

(** * The properties on the small host *)

Lemma Sim_inb_head name h : Sim.inb name (name :: h) = true.
Proof. simpl. by rewrite decide_True. Qed.

Lemma Sim_laws putFails removeFails : @LinkLaws (Sim.env putFails removeFails).
Proof. split; simpl; intros name h h' [= <-]; apply Sim_inb_head. Qed.

Lemma CreateNetwork_twice_is_replay_witness :
  CreateNetwork (H:=Sim.env false false) Sim.reqDummy (Sim.boot false false)
    = (Ok tt, Sim.withNet1 false false) ∧
  CreateNetwork (H:=Sim.env false false) Sim.reqDummyInternal (Sim.withNet1 false false)
    = (Fail (E_restoring_existing "net1"), Sim.withNet1 false false).
Proof.
  split; [vm_compute; reflexivity|].
  apply (@CreateNetwork_twice_is_replay (Sim.env false false)
           (Sim_laws false false) Sim.reqDummy (Sim.boot false false)
           (Sim.withNet1 false false) Sim.reqDummyInternal
           Sim.net1Requested (withInternal true Sim.net1Requested)).
  - vm_compute; reflexivity.
  - reflexivity.
  - reflexivity.
  - reflexivity.
  - reflexivity.
Defined.


(** C3, on the small host.  "net1" is requested without a parent and the
    store refuses the record: the call fails and the network is out of the
    table again, but the dummy link "dm-net1", which was not on the host
    before and was created in this call, is still there; the link layer was
    never asked to delete it. *)
Theorem CreateNetwork_rollback_leaves_link :
  let w := Sim.boot true false in
  let r := CreateNetwork (H:=Sim.env true false) Sim.reqDummy w in
  r.1 = Fail (E_collaborator "the store refuses to write") ∧
  w_networks r.2 = ∅ ∧
  linkExists (Env:=Sim.env true false) "dm-net1" (w_host w) = false ∧
  linkExists (Env:=Sim.env true false) "dm-net1" (w_host r.2) = true ∧
  w_log r.2 = [EvCreateDummy "dm-net1"; EvStorePut (KVNetwork Sim.net1Config)].
Proof. vm_compute. repeat split. Qed.

Lemma DeleteNetwork_parent_ownership_witness :
  ∃ evs,
    w_log (DeleteNetwork (H:=Sim.env false false) (mkDeleteNetworkRequest "net1")
             (Sim.withEp1 false false)).2
      = w_log (Sim.withEp1 false false) ++ evs ∧
    ∀ name, EvDeleteLink name ∈ evs → name = "dm-net1".
Proof.
  destruct (@DeleteNetwork_parent_ownership (Sim.env false false)
              (mkDeleteNetworkRequest "net1") (Sim.withEp1 false false)
              Sim.net1WithEp1)
    as (evs & Hlog & _ & Hdel & _).
  - vm_compute; reflexivity.
  - exists evs. split; [exact Hlog|].
    intros name Hin. destruct (Hdel name Hin) as (_ & Hname & _). exact Hname.
Defined.

Lemma reachable_parents_unique_witness :
  registryInv (w_networks (Sim.withNet1 false false)).
Proof.
  refine (proj1 (@reachable_parents_unique (Sim.env false false)
                   (Sim.withNet1 false false) _)).
  apply (reachable_step (H:=Sim.env false false) (Sim.boot false false)).
  - apply (reachable_new (H:=Sim.env false false)).
  - apply (step_CreateNetwork (H:=Sim.env false false)).
Defined.

(** C6 fails as stated: a list of pool descriptors that holds "10.0.0.0/24"
    behind "0.0.0.0/0" is accepted, and the network is created. *)
Lemma CreateNetwork_later_pool_accepted :
  (∃ d, Some d ∈ cn_IPv4Data Sim.reqTwoPools ∧ Pool d ≠ "" ∧ Pool d ≠ "0.0.0.0/0") ∧
  (CreateNetwork (H:=Sim.env false false) Sim.reqTwoPools (Sim.boot false false)).1
    = Ok tt ∧
  w_log (CreateNetwork (H:=Sim.env false false) Sim.reqTwoPools
           (Sim.boot false false)).2
    = [EvCreateDummy "dm-net1"; EvStorePut (KVNetwork Sim.net1Config)].
Proof.
  split; [|vm_compute; split; reflexivity].
  exists (mkIPAMData "" "10.0.0.0/24" ""). split; [|split; discriminate].
  right. left.
Qed.

Lemma CreateNetwork_first_pool_rejected_witness :
  CreateNetwork (H:=Sim.env false false) Sim.reqOnePool (Sim.boot false false)
  = (Fail E_ipv4_pool_not_empty, Sim.boot false false).
Proof.
  apply (@CreateNetwork_first_pool_rejected (Sim.env false false) Sim.reqOnePool
           (Sim.boot false false) (mkIPAMData "" "10.0.0.0/24" "") []).
  - reflexivity.
  - discriminate.
Defined.

(** C7, on the small host.  An endpoint is requested without a MAC address:
    no address is generated (the source of randomness is untouched), the
    endpoint is registered with an address of length zero and the answer
    carries the empty text.  An endpoint requested with the address
    "02:42:ac:11:00:02" is answered with the hexadecimal codes of the
    seventeen characters of that text. *)
Theorem CreateEndpoint_mac_not_generated :
  let w := Sim.withNet1 false false in
  let r := CreateEndpoint (H:=Sim.env false false) (Sim.epReq "") w in
  r.1 = Ok (mkCreateEndpointResponse (Some (mkEndpointInterface "" "" ""))) ∧
  w_rng r.2 = w_rng w ∧
  w_networks r.2 !! "net1" = Some Sim.net1WithEp1 ∧
  ep_mac Sim.ep1 = Some [] ∧
  (CreateEndpoint (H:=Sim.env false false) (Sim.epReq "02:42:ac:11:00:02") w).1
    = Ok (mkCreateEndpointResponse
            (Some (mkEndpointInterface "" ""
                     "30:32:3a:34:32:3a:61:63:3a:31:31:3a:30:30:3a:30:32"))).
Proof. vm_compute. repeat split. Qed.

(** C8 fails as stated: the second [Join] of "ep1" succeeds with another
    source name than the first, and both interfaces are on the host. *)
Lemma Join_twice_two_interfaces :
  let j1 := Join (H:=Sim.env false false) Sim.joinReq (Sim.withEp1 false false) in
  let j2 := Join (H:=Sim.env false false) Sim.joinReq j1.2 in
  j1.1 = Ok (mkJoinResponse "vethi" "eth" true) ∧
  j2.1 = Ok (mkJoinResponse "vethii" "eth" true) ∧
  w_host j2.2 = ["vethii"; "vethi"; "dm-net1"; "eth0"].
Proof. vm_compute. repeat split. Qed.

Lemma Join_twice_creates_again_witness :
  ∃ evs,
    w_log (Join (H:=Sim.env false false) Sim.joinReq Sim.joinedOnce).2 =
      w_log Sim.joinedOnce ++ EvCreateMacvlan "vethii" "dm-net1" "bridge" :: evs.
Proof.
  destruct (@Join_twice_creates_again (Sim.env false false) Sim.joinReq
              (Sim.withEp1 false false) (mkJoinResponse "vethi" "eth" true)
              Sim.joinedOnce "vethii" 2%nat)
    as (n & evs & Hn & Hlog & _).
  - vm_compute; reflexivity.
  - vm_compute; reflexivity.
  - exists evs. revert Hn Hlog. 
    change (w_networks Sim.joinedOnce !! j_NetworkID Sim.joinReq)
      with (Some (mkNetwork "net1"
                    {[ "ep1" := withSrcName "vethi" Sim.ep1 ]} Sim.net1Config)).
    intros [= <-] Hlog. exact Hlog.
Defined.

(** C9 fails as stated: the store refuses to delete, and [DeleteNetwork]
    returns an error, the network being out of the table. *)
Lemma DeleteNetwork_store_failure_is_error :
  let r := DeleteNetwork (H:=Sim.env false true) (mkDeleteNetworkRequest "net1")
             (Sim.withNet1 false true) in
  r.1 = Fail (E_delete_from_datastore "net1" "the store refuses to delete") ∧
  w_networks r.2 = ∅.
Proof. vm_compute. split; reflexivity. Qed.

Lemma delete_paths_store_failure_witness :
  (DeleteEndpoint (H:=Sim.env false true) (mkDeleteEndpointRequest "net1" "ep1")
     (Sim.withEp1 false true)).1 = Ok tt ∧
  (DeleteNetwork (H:=Sim.env false true) (mkDeleteNetworkRequest "net1")
     (Sim.withEp1 false true)).1
    = Fail (E_delete_from_datastore "net1" "the store refuses to delete").
Proof.
  destruct (@delete_paths_store_failure (Sim.env false true) "net1" "ep1"
              (Sim.withEp1 false true) Sim.net1WithEp1 Sim.ep1)
    as (Hde & _ & _ & _ & Hdn).
  - vm_compute; reflexivity.
  - vm_compute; reflexivity.
  - vm_compute; reflexivity.
  - split; [exact Hde|]. rewrite Hdn. reflexivity.
Defined.

Lemma parseNetworkGenericOptions_panics_witness :
  CreateNetwork (H:=Sim.env false false) Sim.reqNumberAsParent (Sim.boot false false)
  = (Panic "interface conversion: interface {} is not string", Sim.boot false false).
Proof.
  apply (parseNetworkGenericOptions_panics (H:=Sim.env false false)
           [("parent", VFloat64 5)] "parent" (VFloat64 5)).
  - left.
  - left. reflexivity.
  - discriminate.
  - reflexivity.
  - reflexivity.
Defined.

(** * The further properties on the small host *)

Lemma parseNetworkGenericOptions_reads_witness :
  parseNetworkGenericOptions
    (VMapSI [("parent", VString "eth0"); ("mtu", VFloat64 1500)])
  = Ok (mkConfiguration "" "eth0" "" false false).
Proof.
  apply (parseNetworkGenericOptions_reads
           [("parent", VString "eth0"); ("mtu", VFloat64 1500)]).
  - apply NoDup_cons_2; [|apply NoDup_cons_2; [|apply NoDup_nil_2]].
    + intros Hin. apply list_elem_of_singleton in Hin. discriminate Hin.
    + apply not_elem_of_nil.
  - intros v Hv. injection Hv as <-. exists "eth0". reflexivity.
  - intros v Hv. discriminate Hv.
Defined.

Lemma parseNetworkGenericOptions_order_witness :
  parseNetworkGenericOptions
    (VMapSI [("parent", VString "eth0"); ("macvlan_mode", VString "vepa")])
  = parseNetworkGenericOptions
      (VMapSI [("macvlan_mode", VString "vepa"); ("parent", VString "eth0")]).
Proof.
  apply parseNetworkGenericOptions_order.
  - apply NoDup_cons_2; [|apply NoDup_cons_2; [|apply NoDup_nil_2]].
    + intros Hin. apply list_elem_of_singleton in Hin. discriminate Hin.
    + apply not_elem_of_nil.
  - apply perm_swap.
Defined.

Lemma fromOptions_reads_witness :
  fromOptions emptyConfiguration [("parent", "eth0")]
  = mkConfiguration "" "eth0" "" false false.
Proof.
  apply (fromOptions_reads emptyConfiguration [("parent", "eth0")]).
  apply NoDup_cons_2; [apply not_elem_of_nil|apply NoDup_nil_2].
Defined.

Lemma parseNetworkOptions_fields_witness :
  Internal (withInternal true emptyConfiguration) = true ↔
  mapLookup InternalLabel [(InternalLabel, VBool true)] = Some (VBool true).
Proof.
  apply (parseNetworkOptions_fields "net1" [(InternalLabel, VBool true)]
           (withInternal true emptyConfiguration)).
  reflexivity.
Defined.

Lemma CreateNetwork_unrecognized_options_witness :
  CreateNetwork (H:=Sim.env false false) Sim.reqTextAsGeneric (Sim.boot false false)
  = (Fail (E_unrecognized_format (VString "parent=eth0")), Sim.boot false false).
Proof.
  apply (CreateNetwork_unrecognized_options (H:=Sim.env false false)).
  - exact I.
  - reflexivity.
  - discriminate.
  - discriminate.
  - discriminate.
Defined.

Lemma CreateNetwork_invalid_mode_witness :
  CreateNetwork (H:=Sim.env false false) (Sim.reqWithMode "fast") (Sim.boot false false)
  = (Fail (E_invalid_mode "fast"), Sim.boot false false).
Proof.
  apply (CreateNetwork_invalid_mode (H:=Sim.env false false) (Sim.reqWithMode "fast")
           (Sim.boot false false) (mkConfiguration "" "" "fast" false false)).
  - exact I.
  - reflexivity.
  - intros Hin. repeat (apply elem_of_cons in Hin as [Hin|Hin]; [discriminate Hin|]).
    by apply elem_of_nil in Hin.
Defined.

Lemma CreateNetwork_loopback_witness :
  CreateNetwork (H:=Sim.env false false) (Sim.reqOnParent "net1" "lo")
    (Sim.boot false false)
  = (Fail E_loopback_parent, Sim.boot false false).
Proof.
  apply (CreateNetwork_loopback (H:=Sim.env false false) (Sim.reqOnParent "net1" "lo")
           (Sim.boot false false) (mkConfiguration "" "lo" "" false false)).
  - exact I.
  - reflexivity.
  - left.
  - reflexivity.
Defined.

Lemma CreateNetwork_default_mode_witness :
  CreateNetwork (H:=Sim.env false false) Sim.reqDummy (Sim.boot false false)
  = CreateNetwork (H:=Sim.env false false) (Sim.reqWithMode "bridge")
      (Sim.boot false false).
Proof.
  apply (CreateNetwork_default_mode (H:=Sim.env false false) Sim.reqDummy
           (Sim.reqWithMode "bridge") (Sim.boot false false) emptyConfiguration);
    reflexivity.
Defined.

Lemma CreateNetwork_nil_pool_panics_witness :
  CreateNetwork (H:=Sim.env false false) Sim.reqNilPool (Sim.boot false false)
  = (Panic "invalid memory address or nil pointer dereference", Sim.boot false false).
Proof.
  apply (CreateNetwork_nil_pool_panics (H:=Sim.env false false) Sim.reqNilPool
           (Sim.boot false false) []).
  reflexivity.
Defined.

Lemma CreateNetwork_failure_keeps_table_witness :
  w_networks (CreateNetwork (H:=Sim.env true false) Sim.reqDummy (Sim.boot true false)).2
  = ∅.
Proof.
  apply (CreateNetwork_failure_keeps_table (H:=Sim.env true false) Sim.reqDummy
           (Sim.boot true false)).
  - reflexivity.
  - vm_compute. discriminate.
Defined.

Lemma CreateNetwork_registers_witness :
  ∃ config,
    w_networks (Sim.withNet1 false false) =
      <["net1" := mkNetwork "net1" ∅ config]> (w_networks (Sim.boot false false)) ∧
    MacvlanMode config ∈ validModes.
Proof.
  destruct (CreateNetwork_registers (H:=Sim.env false false) Sim.reqDummy
              (Sim.boot false false) (Sim.withNet1 false false))
    as (config & Hnets & _ & Hmode & _).
  - vm_compute; reflexivity.
  - exists config. split; [exact Hnets|exact Hmode].
Defined.

Lemma scanNetworks_order_witness :
  scanNetworks (H:=Sim.env false false) Sim.net1Requested
    [Sim.net1OnEth0; Sim.net1WithEp1]
  = scanNetworks (H:=Sim.env false false) Sim.net1Requested
      [Sim.net1WithEp1; Sim.net1OnEth0].
Proof.
  apply (scanNetworks_order (H:=Sim.env false false)).
  - apply perm_swap.
  - intros n1 n2 Hin1 Hin2 _.
    apply elem_of_cons in Hin1 as [->|Hin1];
      [|apply list_elem_of_singleton in Hin1 as ->];
      (apply elem_of_cons in Hin2 as [->|Hin2];
       [|apply list_elem_of_singleton in Hin2 as ->]); reflexivity.
Defined.

Lemma CreateNetwork_replay_recreates_link_witness :
  CreateNetwork (H:=Sim.env false false) Sim.reqDummy Sim.lostLink
  = (Fail (E_restoring_existing "net1"),
     @mkWorld (Sim.env false false) (w_networks Sim.lostLink) ["dm-net1"; "eth0"]
       ["network/net1"] O [EvCreateDummy "dm-net1"]).
Proof.
  apply (CreateNetwork_replay_recreates_link (H:=Sim.env false false) Sim.reqDummy
           Sim.lostLink Sim.net1Requested "net1"
           (mkNetwork "net1" ∅ Sim.net1Config)).
  - reflexivity.
  - vm_compute; reflexivity.
  - reflexivity.
  - intros k' n' Hk' _. unfold Sim.lostLink in Hk'. cbn [w_networks] in Hk'.
    apply lookup_singleton_Some in Hk' as [_ <-]. reflexivity.
  - reflexivity.
  - reflexivity.
  - reflexivity.
Defined.

Lemma CreateNetwork_link_failure_witness :
  CreateNetwork (H:=Sim.envNoDummy) Sim.reqDummy Sim.bootNoDummy
  = (Fail (E_collaborator "the link layer refuses dummy links"),
     @mkWorld Sim.envNoDummy ∅ ["eth0"] [] O [EvCreateDummy "dm-net1"]).
Proof.
  apply (CreateNetwork_link_failure (H:=Sim.envNoDummy) Sim.reqDummy
           Sim.bootNoDummy Sim.net1Requested).
  - reflexivity.
  - intros k' n' Hk'. simpl in Hk'. rewrite lookup_empty in Hk'. discriminate Hk'.
  - reflexivity.
  - reflexivity.
  - reflexivity.
Defined.

Lemma CreateNetwork_DeleteNetwork_witness :
  w_networks
    (DeleteNetwork (H:=Sim.env false false) (mkDeleteNetworkRequest "net1")
       (Sim.withNet1 false false)).2
  = ∅.
Proof.
  refine (proj1 (CreateNetwork_DeleteNetwork (H:=Sim.env false false)
                   (H0:=Sim_laws false false) Sim.reqDummy (Sim.boot false false)
                   (Sim.withNet1 false false) Sim.net1Requested _ _ _ _ _)).
  - reflexivity.
  - reflexivity.
  - reflexivity.
  - reflexivity.
  - vm_compute; reflexivity.
Defined.

Lemma unknown_network_refused_witness :
  DeleteNetwork (H:=Sim.env false false) (mkDeleteNetworkRequest "net9")
    (Sim.withNet1 false false)
  = (Fail (E_network_not_found "net9"), Sim.withNet1 false false).
Proof.
  apply (unknown_network_refused (H:=Sim.env false false) (Sim.withNet1 false false)
           "net9").
  vm_compute; reflexivity.
Defined.

Lemma unknown_endpoint_refused_witness :
  Join (H:=Sim.env false false) (mkJoinRequest "net1" "ep9" "" [])
    (Sim.withEp1 false false)
  = (Fail (E_could_not_find_endpoint "ep9"), Sim.withEp1 false false).
Proof.
  apply (unknown_endpoint_refused (H:=Sim.env false false) (Sim.withEp1 false false)
           "net1" Sim.net1WithEp1 "ep9").
  - vm_compute; reflexivity.
  - vm_compute; reflexivity.
Defined.

Lemma CreateEndpoint_nil_interface_panics_witness :
  CreateEndpoint (H:=Sim.env false false) Sim.epReqWithoutInterface
    (Sim.withNet1 false false)
  = (Panic "invalid memory address or nil pointer dereference",
     Sim.withNet1 false false).
Proof.
  apply (CreateEndpoint_nil_interface_panics (H:=Sim.env false false)
           Sim.epReqWithoutInterface (Sim.withNet1 false false)
           (mkNetwork "net1" ∅ Sim.net1Config)).
  - reflexivity.
  - vm_compute; reflexivity.
  - reflexivity.
Defined.

Lemma CreateEndpoint_registers_witness :
  ∃ n, w_networks (Sim.withNet1 false false) !! "net1" = Some n ∧
       w_log (Sim.withEp1 false false) =
         w_log (Sim.withNet1 false false) ++ [EvStorePut (KVEndpoint Sim.ep1)].
Proof.
  destruct (CreateEndpoint_registers (H:=Sim.env false false) (Sim.epReq "")
              (Sim.withNet1 false false)
              (mkCreateEndpointResponse (Some (mkEndpointInterface "" "" "")))
              (Sim.withEp1 false false))
    as (n & ifc & s' & Hn & Hifc & _ & Hw).
  - vm_compute; reflexivity.
  - exists n. split; [exact Hn|].
    injection Hifc as <-. rewrite Hw. reflexivity.
Defined.

Lemma CreateEndpoint_DeleteEndpoint_witness :
  w_networks
    (DeleteEndpoint (H:=Sim.env false false) (mkDeleteEndpointRequest "net1" "ep1")
       (Sim.withEp1 false false)).2
  = w_networks (Sim.withNet1 false false).
Proof.
  refine (proj2 (CreateEndpoint_DeleteEndpoint (H:=Sim.env false false) (Sim.epReq "")
                   (Sim.withNet1 false false)
                   (mkCreateEndpointResponse (Some (mkEndpointInterface "" "" "")))
                   (Sim.withEp1 false false) (mkNetwork "net1" ∅ Sim.net1Config)
                   _ _ _)).
  - vm_compute; reflexivity.
  - reflexivity.
  - vm_compute; reflexivity.
Defined.

Lemma DeleteEndpoint_removes_witness :
  w_log
    (DeleteEndpoint (H:=Sim.env false false) (mkDeleteEndpointRequest "net1" "ep1")
       Sim.joinedOnce).2
  = w_log Sim.joinedOnce ++
    [EvLinkDel "vethi"; EvStoreDelete (KVEndpoint (withSrcName "vethi" Sim.ep1))].
Proof.
  refine (proj2 (proj2 (DeleteEndpoint_removes (H:=Sim.env false false) "net1" "ep1"
                          Sim.joinedOnce
                          (mkNetwork "net1" {[ "ep1" := withSrcName "vethi" Sim.ep1 ]}
                             Sim.net1Config)
                          (withSrcName "vethi" Sim.ep1) _ _ _))).
  - reflexivity.
  - vm_compute; reflexivity.
  - vm_compute; reflexivity.
Defined.

Lemma Join_binds_witness :
  ∃ n ep name,
    w_networks (Sim.withEp1 false false) !! "net1" = Some n ∧
    nw_endpoints n !! "ep1" = Some ep ∧
    w_log Sim.joinedOnce =
      w_log (Sim.withEp1 false false) ++
      [EvCreateMacvlan name (Parent (nw_config n)) (MacvlanMode (nw_config n));
       EvStorePut (KVEndpoint (withSrcName "vethi" ep))].
Proof.
  destruct (Join_binds (H:=Sim.env false false) Sim.joinReq (Sim.withEp1 false false)
              (mkJoinResponse "vethi" "eth" true) Sim.joinedOnce)
    as (n & ep & name & Hn & Hep & _ & _ & _ & Hlog).
  - vm_compute; reflexivity.
  - exists n, ep, name. split; [exact Hn|]. split; [exact Hep|exact Hlog].
Defined.

Lemma Join_store_failure_keeps_interface_witness :
  (Join (H:=Sim.env true false) Sim.joinReq Sim.storeDown).1
    = Fail (E_save_endpoint "ep1" "the store refuses to write") ∧
  w_host (Join (H:=Sim.env true false) Sim.joinReq Sim.storeDown).2
    = ["vethi"; "dm-net1"; "eth0"].
Proof.
  destruct (Join_store_failure_keeps_interface (H:=Sim.env true false) Sim.joinReq
              Sim.storeDown Sim.net1WithEp1 Sim.ep1 "vethi" 1%nat "vethi"
              ["vethi"; "dm-net1"; "eth0"] "the store refuses to write" [])
    as (Hres & Hhost & _).
  - vm_compute; reflexivity.
  - vm_compute; reflexivity.
  - reflexivity.
  - reflexivity.
  - reflexivity.
  - split; [exact Hres|exact Hhost].
Defined.

Lemma Join_failure_before_binding_witness :
  w_networks (Join (H:=Sim.env false false) Sim.joinReq Sim.parentGone).2
  = w_networks Sim.parentGone.
Proof.
  refine (proj1 (proj2 (Join_failure_before_binding (H:=Sim.env false false)
                          Sim.joinReq Sim.parentGone Sim.net1WithEp1 Sim.ep1 _ _ _))).
  - vm_compute; reflexivity.
  - vm_compute; reflexivity.
  - intros name rg _.
    exists "the parent does not exist", ["eth0"]. reflexivity.
Defined.

Lemma Join_DeleteEndpoint_witness :
  ∃ ep,
    (DeleteEndpoint (H:=Sim.env false false) (mkDeleteEndpointRequest "net1" "ep1")
       Sim.joinedOnce).1 = Ok tt ∧
    ep_srcName ep = "vethi".
Proof.
  destruct (Join_DeleteEndpoint (H:=Sim.env false false) Sim.joinReq
              (Sim.withEp1 false false) (mkJoinResponse "vethi" "eth" true)
              Sim.joinedOnce)
    as (ep & Hres & Hname & _).
  - reflexivity.
  - vm_compute; reflexivity.
  - exists ep. split; [exact Hres|exact Hname].
Defined.

Lemma Sim_withEp1_reachable : reachable (H:=Sim.env false false) (Sim.withEp1 false false).
Proof.
  apply (reachable_step (H:=Sim.env false false) (Sim.withNet1 false false)).
  - apply (reachable_step (H:=Sim.env false false) (Sim.boot false false)).
    + apply (reachable_new (H:=Sim.env false false)).
    + apply (step_CreateNetwork (H:=Sim.env false false)).
  - apply (step_CreateEndpoint (H:=Sim.env false false)).
Qed.

Lemma reachable_endpoints_keyed_witness :
  ep_id Sim.ep1 = "ep1" ∧ ep_nid Sim.ep1 = "net1" ∧ ep_mac Sim.ep1 ≠ None.
Proof.
  apply (reachable_endpoints_keyed (H:=Sim.env false false) (Sim.withEp1 false false)
           "net1" Sim.net1WithEp1 "ep1" Sim.ep1).
  - apply Sim_withEp1_reachable.
  - vm_compute; reflexivity.
  - vm_compute; reflexivity.
Defined.

Lemma served_modes_valid_witness :
  MacvlanMode Sim.net1Config ∈ validModes.
Proof.
  apply (served_modes_valid (H:=Sim.env false false) (Sim.withNet1 false false)
           "net1" (mkNetwork "net1" ∅ Sim.net1Config)).
  - apply (served_CreateNetwork (H:=Sim.env false false)).
    apply (served_new (H:=Sim.env false false)).
  - vm_compute; reflexivity.
Defined.

(** C5 fails as stated when calls overlap: two calls of [createNetwork],
    for "net1" and for "net2" on the parent "eth0", both run their loop
    over the empty table and then both insert; the table holds two
    networks of different ids on one parent. *)
Lemma overlapping_creates_share_parent :
  overlapped (H:=Sim.env false false) Sim.twoOnEth0 [] ∧
  w_networks Sim.twoOnEth0 !! "net1" = Some (mkNetwork "net1" ∅ (Sim.onEth0 "net1")) ∧
  w_networks Sim.twoOnEth0 !! "net2" = Some (mkNetwork "net2" ∅ (Sim.onEth0 "net2")) ∧
  ¬ parentUnique (w_networks Sim.twoOnEth0).
Proof.
  assert (w_networks Sim.twoOnEth0 !! "net1"
            = Some (mkNetwork "net1" ∅ (Sim.onEth0 "net1"))) as H1
    by (vm_compute; reflexivity).
  assert (w_networks Sim.twoOnEth0 !! "net2"
            = Some (mkNetwork "net2" ∅ (Sim.onEth0 "net2"))) as H2
    by (vm_compute; reflexivity).
  split; [|split; [done|split; [done|]]].
  - apply (overlapped_finish (H:=Sim.env false false) _ [] [] (Sim.onEth0 "net2") false).
    apply (overlapped_finish (H:=Sim.env false false) _
             [(Sim.onEth0 "net2", false)] [] (Sim.onEth0 "net1") false).
    apply (overlapped_scan (H:=Sim.env false false)); [|reflexivity].
    apply (overlapped_scan (H:=Sim.env false false)); [|reflexivity].
    apply (overlapped_new (H:=Sim.env false false)).
  - intros Huniq. by pose proof (Huniq "net1" "net2" _ _ H1 H2 eq_refl).
Qed.
